(** * Whitelist dapp front end: the [Home] component of [pages/index.jsx]

    A shallow embedding of the view controller: the four [useState] cells,
    the [web3ModalRef] reference, the asynchronous handlers
    [getProviderOrSigner], [addAddressToWhitelist], [getNumberOfWhitelisted],
    [checkIfAddressInWhitelist] and [connectWallet], the pure [renderButton]
    and the [useEffect] that starts the first connection.

    Everything the component awaits lives outside the repository (the wallet
    connector, the JSON-RPC provider, the contract), so each awaited call is
    answered by an oracle of the environment: it may fulfil with a value or
    reject with an error.  The handlers are total functions of the
    environment and of the machine state; they record what they do in a
    chronological trace. *)

From Stdlib Require Import ZArith List String Lia.
Import ListNotations.

Local Open Scope string_scope.
Local Open Scope list_scope.

(** ** Data model *)

(** The component state: one field per [useState] cell. *)
Record UIState := mkUI {
  walletConnected : bool;
  joinedWhitelist : bool;
  loading : bool;
  numberOfWhitelisted : Z
}.

(** [useState(false)] three times and [useState(0)]. *)
Definition initialUI : UIState :=
  {| walletConnected := false; joinedWhitelist := false;
     loading := false; numberOfWhitelisted := 0 |}.

(** The options object handed to [new Web3Modal(...)]; [providerOptions] is
    the empty object. *)
Record Web3Modal := mkModal {
  network : string;
  disableInjectedProvider : bool
}.

(** What [web3Modal.connect()] resolves to: the injected wallet provider. *)
Definition RawProvider := nat.

(** [new providers.Web3Provider(provider)]: a wrapper around what the
    connector resolved to; the constructor is taken not to throw. *)
Record Web3Provider := mkWeb3Provider { raw : RawProvider }.

(** What [getProviderOrSigner] returns: the provider itself (read only) or
    the signer obtained from it with [getSigner()]. *)
Inductive Accessor :=
| ProviderAcc (p : Web3Provider)
| SignerAcc (p : Web3Provider).

Definition is_signer (a : Accessor) : bool :=
  match a with SignerAcc _ => true | ProviderAcc _ => false end.

Definition Address := string.

(** [new Contract(address, abi, signerOrProvider)]. *)
Record Contract := mkContract {
  contractAddress : string;
  interface : list string;
  runner : Accessor
}.

(** The transaction response returned by a state-changing contract call. *)
Definition TxHandle := nat.

(** Errors.  [ErrorMsg msg] is [new Error(msg)] thrown by the component;
    [TypeError] is a property access on an undefined [web3ModalRef.current];
    [External] is the rejection of a promise of the wallet or the chain. *)
Inductive ExternalError :=
| WalletRejection
| RpcOrContractError (code : Z).

Inductive Error :=
| ErrorMsg (msg : string)
| TypeError
| External (e : ExternalError).

Definition WrongNetworkError : Error := ErrorMsg "Change network to Rinkeby".

(** Asynchronous functions called without [await]: they are started and the
    caller goes on. *)
Inductive Task :=
| Task_connectWallet
| Task_checkIfAddressInWhitelist
| Task_getNumberOfWhitelisted.

(** What the component does that can be observed from outside, in the order
    it does it. *)
Inductive Event :=
| NewWeb3Modal (opts : Web3Modal)
| Web3ModalConnect
| GetNetwork
| Alert (msg : string)
| GetAddress (signer : Accessor)
| CallAddAddressToWhitelist (c : Contract)
| TxWait (tx : TxHandle)
| CallNumAddressesWhitelisted (c : Contract)
| CallWhitelistedAddress (c : Contract) (a : Address)
| SetWalletConnected (b : bool)
| SetJoinedWhitelist (b : bool)
| SetLoading (b : bool)
| SetNumberOfWhitelisted (n : Z)
| ConsoleError (err : Error).

(** A settled promise of the outside world. *)
Inductive Settled (A : Type) :=
| Fulfilled (a : A)
| Rejected (e : ExternalError).
Arguments Fulfilled {A} a.
Arguments Rejected {A} e.

(** The environment.  The two constants come from [../constants]; the
    oracles answer the awaited calls.  Their first argument is the number of
    awaited calls made so far, so that the same call may be answered
    differently each time it is made. *)
Record Env := mkEnv {
  WHITELIST_CONTRACT_ADDRESS : string;
  abi : list string;
  modal_connect : nat -> Web3Modal -> Settled RawProvider;
  provider_getNetwork : nat -> Web3Provider -> Settled Z;
  signer_getAddress : nat -> Accessor -> Settled Address;
  contract_addAddressToWhitelist : nat -> Contract -> Settled TxHandle;
  tx_wait : nat -> TxHandle -> Settled unit;
  contract_numAddressesWhitelisted : nat -> Contract -> Settled Z;
  contract_whitelistedAddress : nat -> Contract -> Address -> Settled bool
}.

(** The machine: the component state, the [web3ModalRef] reference
    ([None] is [undefined]), the count of awaited calls, the trace, and the
    tasks started without [await] that have not run yet. *)
Record Machine := mkMachine {
  ui : UIState;
  web3ModalRef : option Web3Modal;
  clock : nat;
  trace : list Event;
  started : list Task
}.

Definition with_ui (f : UIState -> UIState) (m : Machine) : Machine :=
  {| ui := f (ui m); web3ModalRef := web3ModalRef m; clock := clock m;
     trace := trace m; started := started m |}.

Definition log (ev : Event) (m : Machine) : Machine :=
  {| ui := ui m; web3ModalRef := web3ModalRef m; clock := clock m;
     trace := trace m ++ [ev]; started := started m |}.

Definition tick (m : Machine) : Machine :=
  {| ui := ui m; web3ModalRef := web3ModalRef m; clock := S (clock m);
     trace := trace m; started := started m |}.

Definition enqueue (t : Task) (m : Machine) : Machine :=
  {| ui := ui m; web3ModalRef := web3ModalRef m; clock := clock m;
     trace := trace m; started := started m ++ [t] |}.

Definition assign_ref (w : Web3Modal) (m : Machine) : Machine :=
  {| ui := ui m; web3ModalRef := Some w; clock := clock m;
     trace := trace m; started := started m |}.

(** ** The monad of asynchronous code *)

Inductive Outcome (A : Type) :=
| Ok (a : A)
| Throw (e : Error).
Arguments Ok {A} a.
Arguments Throw {A} e.

Definition Async (A : Type) : Type := Machine -> Outcome A * Machine.

Definition ret {A} (a : A) : Async A := fun m => (Ok a, m).

Definition bind {A B} (c : Async A) (k : A -> Async B) : Async B :=
  fun m =>
    match c m with
    | (Ok a, m1) => k a m1
    | (Throw e, m1) => (Throw e, m1)
    end.

Definition throw {A} (e : Error) : Async A := fun m => (Throw e, m).

(** [try { body } catch (err) { handler }]: what the body did before it
    threw stays done. *)
Definition try_catch {A} (body : Async A) (handler : Error -> Async A) : Async A :=
  fun m =>
    match body m with
    | (Ok a, m1) => (Ok a, m1)
    | (Throw e, m1) => handler e m1
    end.

Declare Scope async_scope.
Delimit Scope async_scope with async.
Notation "x <- c1 ;; c2" := (bind c1 (fun x => c2))
  (at level 61, c1 at next level, right associativity) : async_scope.
Notation "c1 ;; c2" := (bind c1 (fun _ => c2))
  (at level 61, right associativity) : async_scope.
Local Open Scope async_scope.

Definition emit (ev : Event) : Async unit := fun m => (Ok tt, log ev m).

(** [await call(...)] on the outside world: the call is made, the clock
    advances, and the oracle's answer is the value or the exception. *)
Definition await {A} (ev : Event) (oracle : nat -> Settled A) : Async A :=
  fun m =>
    let m1 := tick (log ev m) in
    match oracle (clock m) with
    | Fulfilled a => (Ok a, m1)
    | Rejected e => (Throw (External e), m1)
    end.

(** An asynchronous function called without [await]. *)
Definition start (t : Task) : Async unit := fun m => (Ok tt, enqueue t m).

(** The four state setters. *)
Definition setWalletConnected (b : bool) : Async unit :=
  fun m => (Ok tt, log (SetWalletConnected b) (with_ui (fun s =>
    {| walletConnected := b; joinedWhitelist := joinedWhitelist s;
       loading := loading s; numberOfWhitelisted := numberOfWhitelisted s |}) m)).

Definition setJoinedWhitelist (b : bool) : Async unit :=
  fun m => (Ok tt, log (SetJoinedWhitelist b) (with_ui (fun s =>
    {| walletConnected := walletConnected s; joinedWhitelist := b;
       loading := loading s; numberOfWhitelisted := numberOfWhitelisted s |}) m)).

Definition setLoading (b : bool) : Async unit :=
  fun m => (Ok tt, log (SetLoading b) (with_ui (fun s =>
    {| walletConnected := walletConnected s; joinedWhitelist := joinedWhitelist s;
       loading := b; numberOfWhitelisted := numberOfWhitelisted s |}) m)).

Definition setNumberOfWhitelisted (n : Z) : Async unit :=
  fun m => (Ok tt, log (SetNumberOfWhitelisted n) (with_ui (fun s =>
    {| walletConnected := walletConnected s; joinedWhitelist := joinedWhitelist s;
       loading := loading s; numberOfWhitelisted := n |}) m)).

(** [console.error(err)]. *)
Definition console_error (err : Error) : Async unit := emit (ConsoleError err).

(** [web3ModalRef.current.connect]: reading a property of [undefined]
    throws. *)
Definition current_modal : Async Web3Modal :=
  fun m =>
    match web3ModalRef m with
    | Some w => (Ok w, m)
    | None => (Throw TypeError, m)
    end.

(** ** Rendering *)

(** The two handlers a button can carry. *)
Inductive Handler :=
| H_addAddressToWhitelist
| H_connectWallet.

(** The JSX elements [renderButton] returns: [<div className=...>text</div>]
    and [<button onClick=... className=...>text</button>]; a button written
    without [onClick] has none. *)
Inductive Element :=
| div (className : string) (text : string)
| button (onClick : option Handler) (className : string) (text : string).

Definition handler_of (el : Element) : option Handler :=
  match el with
  | div _ _ => None
  | button h _ _ => h
  end.

(** Lines 149-174. *)
Definition renderButton (s : UIState) : Element :=
  if walletConnected s then
    if joinedWhitelist s then
      div "description" "Thanks for joining the Whitelist"
    else if loading s then
      button None "button" "Loading..."
    else
      button (Some H_addAddressToWhitelist) "button" "Join the Whitelist"
  else
    button (Some H_connectWallet) "button" "Connect your wallet".

(** The four variants of the specification of [render()], and the priority
    order in its words: not connected; connected and already a member;
    connected, not a member, a transaction pending; connected, not a member,
    idle. *)
Inductive Variant :=
| ConnectAffordance
| MembershipConfirmation
| LoadingAffordance
| JoinAffordance.

Definition render_spec (s : UIState) : Variant :=
  if negb (walletConnected s) then ConnectAffordance
  else if joinedWhitelist s then MembershipConfirmation
  else if loading s then LoadingAffordance
  else JoinAffordance.

(** How each variant looks on the page. *)
Definition variant_element (v : Variant) : Element :=
  match v with
  | ConnectAffordance => button (Some H_connectWallet) "button" "Connect your wallet"
  | MembershipConfirmation => div "description" "Thanks for joining the Whitelist"
  | LoadingAffordance => button None "button" "Loading..."
  | JoinAffordance => button (Some H_addAddressToWhitelist) "button" "Join the Whitelist"
  end.

(** ** The component *)

Section Home.

Variable env : Env.

(** Lines 33-51. *)
Definition getProviderOrSigner (needSigner : bool) : Async Accessor :=
  modal <- current_modal ;;
  provider <- await Web3ModalConnect (fun t => modal_connect env t modal) ;;
  let web3Provider := mkWeb3Provider provider in
  chainId <- await GetNetwork (fun t => provider_getNetwork env t web3Provider) ;;
  if negb (chainId =? 4)%Z then
    emit (Alert "Change the network to Rinkeby") ;;
    throw (ErrorMsg "Change network to Rinkeby")
  else if needSigner then
    ret (SignerAcc web3Provider)
  else
    ret (ProviderAcc web3Provider).

(** [new Contract(WHITELIST_CONTRACT_ADDRESS, abi, signerOrProvider)]; the
    two constants are taken to be well formed, so that the constructor does
    not throw. *)
Definition whitelist_contract (acc : Accessor) : Contract :=
  mkContract (WHITELIST_CONTRACT_ADDRESS env) (abi env) acc.

(** Lines 83-101; the [try] block first, then the function. *)
Definition getNumberOfWhitelisted_try : Async unit :=
  provider <- getProviderOrSigner false ;;
  let whitelistContract := whitelist_contract provider in
  _numberOfWhitelisted <-
    await (CallNumAddressesWhitelisted whitelistContract)
          (fun t => contract_numAddressesWhitelisted env t whitelistContract) ;;
  setNumberOfWhitelisted _numberOfWhitelisted.

Definition getNumberOfWhitelisted : Async unit :=
  try_catch getNumberOfWhitelisted_try (fun err => console_error err).

(** Lines 56-78. *)
Definition addAddressToWhitelist_try : Async unit :=
  signer <- getProviderOrSigner true ;;
  let whitelistContract := whitelist_contract signer in
  tx <- await (CallAddAddressToWhitelist whitelistContract)
              (fun t => contract_addAddressToWhitelist env t whitelistContract) ;;
  setLoading true ;;
  await (TxWait tx) (fun t => tx_wait env t tx) ;;
  setLoading false ;;
  getNumberOfWhitelisted.

Definition addAddressToWhitelist : Async unit :=
  try_catch addAddressToWhitelist_try (fun err => console_error err).

(** Lines 106-127. *)
Definition checkIfAddressInWhitelist_try : Async unit :=
  signer <- getProviderOrSigner true ;;
  let whitelistedContract := whitelist_contract signer in
  address <- await (GetAddress signer) (fun t => signer_getAddress env t signer) ;;
  _joinedWhitelist <-
    await (CallWhitelistedAddress whitelistedContract address)
          (fun t => contract_whitelistedAddress env t whitelistedContract address) ;;
  setJoinedWhitelist _joinedWhitelist.

Definition checkIfAddressInWhitelist : Async unit :=
  try_catch checkIfAddressInWhitelist_try (fun err => console_error err).

(** Lines 132-144.  The two reads are called without [await]. *)
Definition connectWallet_try : Async unit :=
  getProviderOrSigner false ;;
  setWalletConnected true ;;
  start Task_checkIfAddressInWhitelist ;;
  start Task_getNumberOfWhitelisted.

Definition connectWallet : Async unit :=
  try_catch connectWallet_try (fun err => console_error err).

(** Lines 179-191: the effect that runs after the first render and after
    each render in which [walletConnected] changed. *)
Definition useEffect_walletConnected : Async unit :=
  fun m =>
    if negb (walletConnected (ui m)) then
      let opts := {| network := "rinkeby"; disableInjectedProvider := false |} in
      (emit (NewWeb3Modal opts) ;;
       (fun m1 => (Ok tt, assign_ref opts m1)) ;;
       start Task_connectWallet) m
    else
      ret tt m.

Definition run_task (t : Task) : Async unit :=
  match t with
  | Task_connectWallet => connectWallet
  | Task_checkIfAddressInWhitelist => checkIfAddressInWhitelist
  | Task_getNumberOfWhitelisted => getNumberOfWhitelisted
  end.

Definition run_handler (h : Handler) : Async unit :=
  match h with
  | H_addAddressToWhitelist => addAddressToWhitelist
  | H_connectWallet => connectWallet
  end.

(** A click on whatever [renderButton] shows in the current state. *)
Definition click : Async unit :=
  fun m =>
    match handler_of (renderButton (ui m)) with
    | Some h => run_handler h m
    | None => ret tt m
    end.

(** The machine once its oldest started task has been taken. *)
Definition dequeue (m : Machine) : Machine :=
  {| ui := ui m; web3ModalRef := web3ModalRef m; clock := clock m;
     trace := trace m; started := tl (started m) |}.

End Home.

(** ** A session of the page *)

(** What can set a handler going: the effect runs, or the user clicks the
    button that is shown. *)
Inductive Trigger :=
| EffectRuns
| ButtonClicked.

Definition react (env : Env) (t : Trigger) : Async unit :=
  match t with
  | EffectRuns => useEffect_walletConnected
  | ButtonClicked => click env
  end.

Fixpoint session (env : Env) (ts : list Trigger) (m : Machine) : Machine :=
  match ts with
  | [] => m
  | t :: rest => session env rest (snd (react env t m))
  end.

(** ** Scenarios *)

(** An environment that answers each call the same way every time. *)
Definition steady_env (connect : Settled RawProvider) (chain : Settled Z)
    (account : Settled Address) (submit : Settled TxHandle)
    (mined : Settled unit) (count : Settled Z) (member : Settled bool) : Env :=
  {| WHITELIST_CONTRACT_ADDRESS := "0xWhitelist";
     abi := ["addAddressToWhitelist"; "numAddressesWhitelisted"; "whitelistedAddress"];
     modal_connect := fun _ _ => connect;
     provider_getNetwork := fun _ _ => chain;
     signer_getAddress := fun _ _ => account;
     contract_addAddressToWhitelist := fun _ _ => submit;
     tx_wait := fun _ _ => mined;
     contract_numAddressesWhitelisted := fun _ _ => count;
     contract_whitelistedAddress := fun _ _ _ => member |}.

(** Rinkeby, everything answers, three addresses on the list. *)
Definition env_first_visit : Env :=
  steady_env (Fulfilled 0) (Fulfilled 4%Z) (Fulfilled "0xUser") (Fulfilled 7)
             (Fulfilled tt) (Fulfilled 3%Z) (Fulfilled false).

(** Rinkeby, everything answers, four addresses on the list (the user's
    join has been mined). *)
Definition env_rinkeby : Env :=
  steady_env (Fulfilled 0) (Fulfilled 4%Z) (Fulfilled "0xUser") (Fulfilled 7)
             (Fulfilled tt) (Fulfilled 4%Z) (Fulfilled false).

(** The wallet is on main net (chain id 1). *)
Definition env_mainnet : Env :=
  steady_env (Fulfilled 0) (Fulfilled 1%Z) (Fulfilled "0xUser") (Fulfilled 7)
             (Fulfilled tt) (Fulfilled 4%Z) (Fulfilled false).

(** The user declines the transaction in the wallet. *)
Definition env_prompt_rejected : Env :=
  steady_env (Fulfilled 0) (Fulfilled 4%Z) (Fulfilled "0xUser") (Rejected WalletRejection)
             (Fulfilled tt) (Fulfilled 3%Z) (Fulfilled false).

(** The transaction is submitted but [tx.wait()] rejects. *)
Definition env_wait_fails : Env :=
  steady_env (Fulfilled 0) (Fulfilled 4%Z) (Fulfilled "0xUser") (Fulfilled 7)
             (Rejected (RpcOrContractError (-32000))) (Fulfilled 3%Z) (Fulfilled false).


(** The user declines the connection in the wallet. *)
Definition env_connect_declined : Env :=
  steady_env (Rejected WalletRejection) (Fulfilled 4%Z) (Fulfilled "0xUser")
             (Fulfilled 7) (Fulfilled tt) (Fulfilled 3%Z) (Fulfilled false).

(** Rinkeby, and the contract says the user is already a member. *)
Definition env_member : Env :=
  steady_env (Fulfilled 0) (Fulfilled 4%Z) (Fulfilled "0xUser") (Fulfilled 7)
             (Fulfilled tt) (Fulfilled 5%Z) (Fulfilled true).

Definition the_modal : Web3Modal :=
  {| network := "rinkeby"; disableInjectedProvider := false |}.

(** The page as it is first rendered, before the effect has run. *)
Definition fresh : Machine :=
  {| ui := initialUI; web3ModalRef := None; clock := 0; trace := []; started := [] |}.

(** After the effect has run and the connector exists, still disconnected. *)
Definition mounted : Machine :=
  {| ui := initialUI; web3ModalRef := Some the_modal; clock := 0; trace := [];
     started := [] |}.

(** Connected, not a member, three addresses on the list. *)
Definition connected : Machine :=
  {| ui := {| walletConnected := true; joinedWhitelist := false;
              loading := false; numberOfWhitelisted := 3 |};
     web3ModalRef := Some the_modal; clock := 0; trace := []; started := [] |}.

(** ** Vocabulary of the properties *)

(** The machine after [web3Modal.connect()] and after [getNetwork()]. *)
Definition after_connect (m : Machine) : Machine := tick (log Web3ModalConnect m).

Definition after_network (m : Machine) : Machine :=
  tick (log GetNetwork (after_connect m)).

(** The five ways a call of [getProviderOrSigner] can go. *)
Inductive gps_case (env : Env) (needSigner : bool) (m : Machine) :
  Outcome Accessor * Machine -> Prop :=
| gps_undefined :
    web3ModalRef m = None ->
    gps_case env needSigner m (Throw TypeError, m)
| gps_connect_rejected w e :
    web3ModalRef m = Some w ->
    modal_connect env (clock m) w = Rejected e ->
    gps_case env needSigner m (Throw (External e), after_connect m)
| gps_network_rejected w p e :
    web3ModalRef m = Some w ->
    modal_connect env (clock m) w = Fulfilled p ->
    provider_getNetwork env (S (clock m)) (mkWeb3Provider p) = Rejected e ->
    gps_case env needSigner m (Throw (External e), after_network m)
| gps_wrong_network w p chainId :
    web3ModalRef m = Some w ->
    modal_connect env (clock m) w = Fulfilled p ->
    provider_getNetwork env (S (clock m)) (mkWeb3Provider p) = Fulfilled chainId ->
    chainId <> 4%Z ->
    gps_case env needSigner m
      (Throw WrongNetworkError,
       log (Alert "Change the network to Rinkeby") (after_network m))
| gps_accessor w p :
    web3ModalRef m = Some w ->
    modal_connect env (clock m) w = Fulfilled p ->
    provider_getNetwork env (S (clock m)) (mkWeb3Provider p) = Fulfilled 4%Z ->
    gps_case env needSigner m
      (Ok (if needSigner then SignerAcc (mkWeb3Provider p)
           else ProviderAcc (mkWeb3Provider p)),
       after_network m).

(** The events of [getProviderOrSigner]. *)
Definition wallet_event (ev : Event) : bool :=
  match ev with
  | Web3ModalConnect | GetNetwork | Alert _ => true
  | _ => false
  end.

(** The calls of the four state setters. *)
Definition is_setter (ev : Event) : bool :=
  match ev with
  | SetWalletConnected _ | SetJoinedWhitelist _ | SetLoading _
  | SetNumberOfWhitelisted _ => true
  | _ => false
  end.

(** What [addAddressToWhitelist] may do: talk to the wallet, call the join
    and the count operations of the contract, wait, set [loading] and the
    count, and log. *)
Definition join_event (ev : Event) : bool :=
  match ev with
  | Web3ModalConnect | GetNetwork | Alert _
  | CallAddAddressToWhitelist _ | TxWait _ | CallNumAddressesWhitelisted _
  | SetLoading _ | SetNumberOfWhitelisted _ | ConsoleError _ => true
  | NewWeb3Modal _ | GetAddress _ | CallWhitelistedAddress _ _
  | SetWalletConnected _ | SetJoinedWhitelist _ => false
  end.

(** The membership check: reading the address and asking the contract about
    it, and the setter of [joinedWhitelist]. *)
Definition membership_event (ev : Event) : bool :=
  match ev with
  | GetAddress _ | CallWhitelistedAddress _ _ | SetJoinedWhitelist _ => true
  | _ => false
  end.

(** The two reads of the chain. *)
Inductive Read :=
| CountRead
| MembershipRead.


Definition read (env : Env) (r : Read) : Async unit :=
  match r with
  | CountRead => getNumberOfWhitelisted env
  | MembershipRead => checkIfAddressInWhitelist env
  end.

(** The ways the submission of the join transaction can fail: no signer
    could be obtained, or the contract call was rejected (the user declined
    it in the wallet, or the node refused it). *)
Inductive submission_failure (env : Env) (m : Machine) : Error -> Prop :=
| no_signer e m1 :
    getProviderOrSigner env true m = (Throw e, m1) ->
    submission_failure env m e
| submit_rejected signer m1 e :
    getProviderOrSigner env true m = (Ok signer, m1) ->
    contract_addAddressToWhitelist env (clock m1) (whitelist_contract env signer)
      = Rejected e ->
    submission_failure env m (External e).

(** The transaction was submitted and [tx.wait()] rejected. *)
Inductive confirmation_failure (env : Env) (m : Machine) : ExternalError -> Prop :=
| wait_rejected signer m1 tx e :
    getProviderOrSigner env true m = (Ok signer, m1) ->
    contract_addAddressToWhitelist env (clock m1) (whitelist_contract env signer)
      = Fulfilled tx ->
    tx_wait env (S (clock m1)) tx = Rejected e ->
    confirmation_failure env m e.

(** A computation respects a relation on machines when, whatever its
    outcome, the machine it ends in is related to the one it started in. *)
Definition respects {A} (R : Machine -> Machine -> Prop) (c : Async A) : Prop :=
  forall m, R m (snd (c m)).

(** What [addAddressToWhitelist] leaves alone. *)
Definition join_frame (m m' : Machine) : Prop :=
  walletConnected (ui m') = walletConnected (ui m)
  /\ joinedWhitelist (ui m') = joinedWhitelist (ui m)
  /\ web3ModalRef m' = web3ModalRef m
  /\ started m' = started m
  /\ exists evs, trace m' = trace m ++ evs
       /\ Forall (fun ev => join_event ev = true) evs.

(** ** Runs of the page *)

(** One step of the page: a trigger fires, or the oldest started task
    runs. *)
Inductive Step :=
| Fire (t : Trigger)
| RunTask.

Definition run_next (env : Env) : Async unit :=
  fun m =>
    match started m with
    | t :: _ => run_task env t (dequeue m)
    | [] => ret tt m
    end.

Definition step (env : Env) (s : Step) : Async unit :=
  match s with
  | Fire t => react env t
  | RunTask => run_next env
  end.

Fixpoint run (env : Env) (ss : list Step) (m : Machine) : Machine :=
  match ss with
  | [] => m
  | s :: rest => run env rest (snd (step env s m))
  end.

(** The three handlers that talk to the contract, and the accessor each
    asks [getProviderOrSigner] for. *)
Inductive ChainOp :=
| JoinOp
| ReadOp (r : Read).

Definition needs_signer (op : ChainOp) : bool :=
  match op with
  | JoinOp => true
  | ReadOp CountRead => false
  | ReadOp MembershipRead => true
  end.

Definition chain_handler (env : Env) (op : ChainOp) : Async unit :=
  match op with
  | JoinOp => addAddressToWhitelist env
  | ReadOp r => read env r
  end.

(** ** Outcome tables of the handlers *)

(** [getNumberOfWhitelisted]: no provider, the count call rejected, or the
    count stored. *)
Inductive count_case (env : Env) (m : Machine) : Outcome unit * Machine -> Prop :=
| count_no_provider e m1 :
    getProviderOrSigner env false m = (Throw e, m1) ->
    count_case env m (Ok tt, log (ConsoleError e) m1)
| count_rejected acc m1 e :
    getProviderOrSigner env false m = (Ok acc, m1) ->
    contract_numAddressesWhitelisted env (clock m1) (whitelist_contract env acc)
      = Rejected e ->
    count_case env m
      (Ok tt,
       log (ConsoleError (External e))
         (tick (log (CallNumAddressesWhitelisted (whitelist_contract env acc)) m1)))
| count_stored acc m1 n :
    getProviderOrSigner env false m = (Ok acc, m1) ->
    contract_numAddressesWhitelisted env (clock m1) (whitelist_contract env acc)
      = Fulfilled n ->
    count_case env m
      (setNumberOfWhitelisted n
         (tick (log (CallNumAddressesWhitelisted (whitelist_contract env acc)) m1))).

(** [checkIfAddressInWhitelist]: no signer, the address not obtained, the
    membership call rejected, or the answer stored. *)
Inductive membership_case (env : Env) (m : Machine) :
  Outcome unit * Machine -> Prop :=
| membership_no_signer e m1 :
    getProviderOrSigner env true m = (Throw e, m1) ->
    membership_case env m (Ok tt, log (ConsoleError e) m1)
| membership_no_address acc m1 e :
    getProviderOrSigner env true m = (Ok acc, m1) ->
    signer_getAddress env (clock m1) acc = Rejected e ->
    membership_case env m
      (Ok tt, log (ConsoleError (External e)) (tick (log (GetAddress acc) m1)))
| membership_rejected acc m1 a e :
    getProviderOrSigner env true m = (Ok acc, m1) ->
    signer_getAddress env (clock m1) acc = Fulfilled a ->
    contract_whitelistedAddress env (S (clock m1)) (whitelist_contract env acc) a
      = Rejected e ->
    membership_case env m
      (Ok tt,
       log (ConsoleError (External e))
         (tick (log (CallWhitelistedAddress (whitelist_contract env acc) a)
                    (tick (log (GetAddress acc) m1)))))
| membership_stored acc m1 a b :
    getProviderOrSigner env true m = (Ok acc, m1) ->
    signer_getAddress env (clock m1) acc = Fulfilled a ->
    contract_whitelistedAddress env (S (clock m1)) (whitelist_contract env acc) a
      = Fulfilled b ->
    membership_case env m
      (setJoinedWhitelist b
         (tick (log (CallWhitelistedAddress (whitelist_contract env acc) a)
                    (tick (log (GetAddress acc) m1))))).

(** [addAddressToWhitelist]: no signer, the submission rejected, the wait
    rejected, or the transaction mined and the count refreshed. *)
Inductive join_case (env : Env) (m : Machine) : Outcome unit * Machine -> Prop :=
| join_no_signer e m1 :
    getProviderOrSigner env true m = (Throw e, m1) ->
    join_case env m (Ok tt, log (ConsoleError e) m1)
| join_not_submitted acc m1 e :
    getProviderOrSigner env true m = (Ok acc, m1) ->
    contract_addAddressToWhitelist env (clock m1) (whitelist_contract env acc)
      = Rejected e ->
    join_case env m
      (Ok tt,
       log (ConsoleError (External e))
         (tick (log (CallAddAddressToWhitelist (whitelist_contract env acc)) m1)))
| join_not_mined acc m1 tx e :
    getProviderOrSigner env true m = (Ok acc, m1) ->
    contract_addAddressToWhitelist env (clock m1) (whitelist_contract env acc)
      = Fulfilled tx ->
    tx_wait env (S (clock m1)) tx = Rejected e ->
    join_case env m
      (Ok tt,
       log (ConsoleError (External e))
         (tick (log (TxWait tx)
            (snd (setLoading true
               (tick (log (CallAddAddressToWhitelist (whitelist_contract env acc))
                          m1)))))))
| join_mined acc m1 tx :
    getProviderOrSigner env true m = (Ok acc, m1) ->
    contract_addAddressToWhitelist env (clock m1) (whitelist_contract env acc)
      = Fulfilled tx ->
    tx_wait env (S (clock m1)) tx = Fulfilled tt ->
    join_case env m
      (getNumberOfWhitelisted env
         (snd (setLoading false
            (tick (log (TxWait tx)
               (snd (setLoading true
                  (tick (log (CallAddAddressToWhitelist
                                (whitelist_contract env acc)) m1))))))))).

(** [connectWallet]: no provider, or connected and the two reads started. *)
Inductive connect_case (env : Env) (m : Machine) : Outcome unit * Machine -> Prop :=
| connect_failed e m1 :
    getProviderOrSigner env false m = (Throw e, m1) ->
    connect_case env m (Ok tt, log (ConsoleError e) m1)
| connect_done acc m1 :
    getProviderOrSigner env false m = (Ok acc, m1) ->
    connect_case env m
      (Ok tt,
       enqueue Task_getNumberOfWhitelisted
         (enqueue Task_checkIfAddressInWhitelist
            (snd (setWalletConnected true m1)))).

(** ** What a run may do *)

(** The contract calls are made on a contract whose address and interface
    are the two constants, the join and the membership question through a
    signer and the count through the plain provider; the address is read
    from a signer; [walletConnected] is only ever set to true; the connector
    is created for Rinkeby with the injected provider enabled. *)
Definition honest_event (env : Env) (ev : Event) : Prop :=
  match ev with
  | CallAddAddressToWhitelist c | CallWhitelistedAddress c _ =>
      contractAddress c = WHITELIST_CONTRACT_ADDRESS env
      /\ interface c = abi env
      /\ is_signer (runner c) = true
  | CallNumAddressesWhitelisted c =>
      contractAddress c = WHITELIST_CONTRACT_ADDRESS env
      /\ interface c = abi env
      /\ is_signer (runner c) = false
  | GetAddress s => is_signer s = true
  | SetWalletConnected b => b = true
  | NewWeb3Modal opts => opts = the_modal
  | _ => True
  end.

(** The calls that reach the chain through the accessor. *)
Definition chain_event (ev : Event) : bool :=
  match ev with
  | GetAddress _ | CallAddAddressToWhitelist _ | TxWait _
  | CallNumAddressesWhitelisted _ | CallWhitelistedAddress _ _ => true
  | _ => false
  end.

(** The submissions of the join transaction among some events. *)
Definition is_submission (ev : Event) : bool :=
  match ev with
  | CallAddAddressToWhitelist _ => true
  | _ => false
  end.

Definition submissions (evs : list Event) : nat :=
  List.length (filter is_submission evs).

(** The machine with other values in the state cells. *)
Definition set_ui (u : UIState) (m : Machine) : Machine := with_ui (fun _ => u) m.

(** Two machines that differ at most in the values of the state cells. *)
Definition twin (m1 m2 : Machine) : Prop :=
  trace m1 = trace m2
  /\ clock m1 = clock m2
  /\ started m1 = started m2
  /\ web3ModalRef m1 = web3ModalRef m2.

(** Two runs that made the same calls in the same order with the same
    outcome. *)
Definition same_behaviour {A} (r1 r2 : Outcome A * Machine) : Prop :=
  fst r1 = fst r2 /\ twin (snd r1) (snd r2).

(** A computation that behaves the same on twins. *)
Definition blind {A} (c : Async A) : Prop :=
  forall m1 m2, twin m1 m2 -> same_behaviour (c m1) (c m2).

(** The clicks among some steps. *)
Definition is_click (s : Step) : bool :=
  match s with
  | Fire ButtonClicked => true
  | _ => false
  end.

Definition clicks (ss : list Step) : nat := List.length (filter is_click ss).

(** How the machine after some steps relates to the machine before them. *)
Definition footprint (env : Env) (m m' : Machine) : Prop :=
  (web3ModalRef m <> None -> web3ModalRef m' <> None)
  /\ (walletConnected (ui m) = true -> walletConnected (ui m') = true)
  /\ exists evs,
       trace m' = trace m ++ evs
       /\ Forall (honest_event env) evs
       /\ (web3ModalRef m <> None ->
           Forall (fun ev => ev <> ConsoleError TypeError) evs)
       /\ (loading (ui m') = true ->
           loading (ui m) = true
           \/ exists c, In (CallAddAddressToWhitelist c) evs)
       /\ (joinedWhitelist (ui m') = true ->
           joinedWhitelist (ui m) = true
           \/ exists c a, In (CallWhitelistedAddress c a) evs).

(** The wallet stays connected on chain 4 and the contract keeps giving the
    same answers, whenever it is asked. *)
Record steady_answers (env : Env) (p : RawProvider) (addr : Address)
    (member : bool) (n : Z) : Prop := {
  steady_connect : forall t w, modal_connect env t w = Fulfilled p;
  steady_network : forall t q, provider_getNetwork env t q = Fulfilled 4%Z;
  steady_address : forall t s, signer_getAddress env t s = Fulfilled addr;
  steady_member : forall t c,
      contract_whitelistedAddress env t c addr = Fulfilled member;
  steady_count : forall t c, contract_numAddressesWhitelisted env t c = Fulfilled n
}.

(** ** The handlers as resumable processes *)

(** An asynchronous function gives the control back at each [await]; what it
    does between two of them it does in one go.  [Proc] is the code of such
    a function cut at its [await]s: [PAwait] makes a call to the outside
    world and suspends until it settles, [PYield] suspends on the promise of
    another asynchronous function of the component that has already settled,
    [PFork] calls an asynchronous function of the component without
    [await]. *)
Inductive Proc (A : Type) : Type :=
| PRet (a : A)
| PRaise (e : Error)
| PNow (f : Machine -> Machine) (k : Proc A)
| PCurrent (k : option Web3Modal -> Proc A)
| PAwait (B : Type) (ev : Event) (oracle : nat -> Settled B)
         (k : Settled B -> Proc A)
| PYield (k : Proc A)
| PFork (t : Task) (k : Proc A).
Arguments PRet {A} a.
Arguments PRaise {A} e.
Arguments PNow {A} f k.
Arguments PCurrent {A} k.
Arguments PAwait {A B} ev oracle k.
Arguments PYield {A} k.
Arguments PFork {A} t k.

Fixpoint bind_p {A B} (p : Proc A) (k : A -> Proc B) : Proc B :=
  match p with
  | PRet a => k a
  | PRaise e => PRaise e
  | PNow f q => PNow f (bind_p q k)
  | PCurrent q => PCurrent (fun r => bind_p (q r) k)
  | PAwait ev oracle q => PAwait ev oracle (fun r => bind_p (q r) k)
  | PYield q => PYield (bind_p q k)
  | PFork t q => PFork t (bind_p q k)
  end.

(** [try { p } catch (err) { h err }]. *)
Fixpoint catch_p {A} (p : Proc A) (h : Error -> Proc A) : Proc A :=
  match p with
  | PRet a => PRet a
  | PRaise e => h e
  | PNow f q => PNow f (catch_p q h)
  | PCurrent q => PCurrent (fun r => catch_p (q r) h)
  | PAwait ev oracle q => PAwait ev oracle (fun r => catch_p (q r) h)
  | PYield q => PYield (catch_p q h)
  | PFork t q => PFork t (catch_p q h)
  end.

Declare Scope proc_scope.
Delimit Scope proc_scope with proc.
Notation "x <- c1 ;; c2" := (bind_p c1 (fun x => c2))
  (at level 61, c1 at next level, right associativity) : proc_scope.
Notation "c1 ;; c2" := (bind_p c1 (fun _ => c2))
  (at level 61, right associativity) : proc_scope.

(** A synchronous statement that cannot throw: an event, a setter, a log. *)
Definition sync (c : Async unit) : Proc unit :=
  PNow (fun m => snd (c m)) (PRet tt).

Definition current_modal_p : Proc Web3Modal :=
  PCurrent (fun r => match r with
                     | Some w => PRet w
                     | None => PRaise TypeError
                     end).

(** [await call(...)] on the outside world. *)
Definition await_p {B} (ev : Event) (oracle : nat -> Settled B) : Proc B :=
  PAwait ev oracle (fun r => match r with
                             | Fulfilled b => PRet b
                             | Rejected e => PRaise (External e)
                             end).

(** [await f(...)] on an asynchronous function of the component: the caller
    goes on, or catches, one turn after [f] has finished. *)
Definition call_p {A} (p : Proc A) : Proc A :=
  catch_p (bind_p p (fun a => PYield (PRet a))) (fun e => PYield (PRaise e)).

Definition start_p (t : Task) : Proc unit := PFork t (PRet tt).

Section HomeProcesses.

Variable env : Env.

Local Open Scope proc_scope.

(** Lines 33-51. *)
Definition getProviderOrSigner_p (needSigner : bool) : Proc Accessor :=
  modal <- current_modal_p ;;
  provider <- await_p Web3ModalConnect (fun t => modal_connect env t modal) ;;
  let web3Provider := mkWeb3Provider provider in
  chainId <- await_p GetNetwork (fun t => provider_getNetwork env t web3Provider) ;;
  if negb (chainId =? 4)%Z then
    sync (emit (Alert "Change the network to Rinkeby")) ;;
    PRaise (ErrorMsg "Change network to Rinkeby")
  else if needSigner then
    PRet (SignerAcc web3Provider)
  else
    PRet (ProviderAcc web3Provider).

(** Lines 83-101. *)
Definition getNumberOfWhitelisted_p : Proc unit :=
  catch_p
    (provider <- call_p (getProviderOrSigner_p false) ;;
     let whitelistContract := whitelist_contract env provider in
     _numberOfWhitelisted <-
       await_p (CallNumAddressesWhitelisted whitelistContract)
               (fun t => contract_numAddressesWhitelisted env t whitelistContract) ;;
     sync (setNumberOfWhitelisted _numberOfWhitelisted))
    (fun err => sync (console_error err)).

(** Lines 56-78. *)
Definition addAddressToWhitelist_p : Proc unit :=
  catch_p
    (signer <- call_p (getProviderOrSigner_p true) ;;
     let whitelistContract := whitelist_contract env signer in
     tx <- await_p (CallAddAddressToWhitelist whitelistContract)
                   (fun t => contract_addAddressToWhitelist env t whitelistContract) ;;
     sync (setLoading true) ;;
     await_p (TxWait tx) (fun t => tx_wait env t tx) ;;
     sync (setLoading false) ;;
     call_p getNumberOfWhitelisted_p)
    (fun err => sync (console_error err)).

(** Lines 106-127. *)
Definition checkIfAddressInWhitelist_p : Proc unit :=
  catch_p
    (signer <- call_p (getProviderOrSigner_p true) ;;
     let whitelistedContract := whitelist_contract env signer in
     address <- await_p (GetAddress signer)
                        (fun t => signer_getAddress env t signer) ;;
     _joinedWhitelist <-
       await_p (CallWhitelistedAddress whitelistedContract address)
               (fun t => contract_whitelistedAddress env t whitelistedContract address) ;;
     sync (setJoinedWhitelist _joinedWhitelist))
    (fun err => sync (console_error err)).

(** Lines 132-144. *)
Definition connectWallet_p : Proc unit :=
  catch_p
    (call_p (getProviderOrSigner_p false) ;;
     sync (setWalletConnected true) ;;
     start_p Task_checkIfAddressInWhitelist ;;
     start_p Task_getNumberOfWhitelisted)
    (fun err => sync (console_error err)).

Definition task_p (t : Task) : Proc unit :=
  match t with
  | Task_connectWallet => connectWallet_p
  | Task_checkIfAddressInWhitelist => checkIfAddressInWhitelist_p
  | Task_getNumberOfWhitelisted => getNumberOfWhitelisted_p
  end.

End HomeProcesses.

(** A process run without ever giving the control to another one: each call
    is answered at once, and a function called without [await] is queued. *)
Fixpoint atomic {A} (p : Proc A) : Async A :=
  fun m =>
    match p with
    | PRet a => (Ok a, m)
    | PRaise e => (Throw e, m)
    | PNow f k => atomic k (f m)
    | PCurrent k => atomic (k (web3ModalRef m)) m
    | PAwait ev oracle k => atomic (k (oracle (clock m))) (tick (log ev m))
    | PYield k => atomic k m
    | PFork t k => atomic k (enqueue t m)
    end.

(** ** The page with handlers in flight *)

(** The machine, the processes that are suspended (each on a call that has
    been made and answered, or on a settled promise), oldest first, and the
    errors no [catch] took. *)
Record Page := mkPage {
  machine : Machine;
  pending : list (Proc unit);
  unhandled : list Error
}.

Definition page_of (m : Machine) : Page :=
  {| machine := m; pending := []; unhandled := [] |}.

(** A process runs until it suspends or ends.  A call to the outside world
    is made, and answered, when the process reaches it; the process goes on
    from the answer when it is resumed.  A function called without [await]
    runs at once until its own first suspension. *)
Fixpoint advance (launch : Task -> Page -> Page) (p : Proc unit) (pg : Page) : Page :=
  match p with
  | PRet _ => pg
  | PRaise e =>
      {| machine := machine pg; pending := pending pg;
         unhandled := unhandled pg ++ [e] |}
  | PNow f k =>
      advance launch k
        {| machine := f (machine pg); pending := pending pg;
           unhandled := unhandled pg |}
  | PCurrent k => advance launch (k (web3ModalRef (machine pg))) pg
  | PAwait ev oracle k =>
      {| machine := tick (log ev (machine pg));
         pending := pending pg ++ [k (oracle (clock (machine pg)))];
         unhandled := unhandled pg |}
  | PYield k =>
      {| machine := machine pg; pending := pending pg ++ [k];
         unhandled := unhandled pg |}
  | PFork t k => advance launch k (launch t pg)
  end.

(** The two reads call no function of the component without [await];
    [connectWallet] calls the two reads. *)
Definition launch_read (env : Env) (t : Task) (pg : Page) : Page :=
  advance (fun _ pg' => pg') (task_p env t) pg.

Definition launch_task (env : Env) (t : Task) (pg : Page) : Page :=
  advance (launch_read env) (task_p env t) pg.

Definition remove_nth {A} (i : nat) (l : list A) : list A :=
  firstn i l ++ skipn (S i) l.

(** The [i]-th suspended process is resumed; nothing happens if there is
    none. *)
Definition resume (env : Env) (i : nat) (pg : Page) : Page :=
  match nth_error (pending pg) i with
  | Some p =>
      advance (launch_task env) p
        {| machine := machine pg; pending := remove_nth i (pending pg);
           unhandled := unhandled pg |}
  | None => pg
  end.

(** The suspended processes are resumed in the order the schedule gives,
    which is the order in which the outside world settles their calls. *)
Definition drain (env : Env) (sched : list nat) (pg : Page) : Page :=
  fold_left (fun pg' i => resume env i pg') sched pg.

(** The functions called without [await] that the machine holds are set
    going, oldest first. *)
Definition launch_started (env : Env) (m : Machine) : Page :=
  fold_left (fun pg t => launch_task env t pg) (started m)
    (page_of {| ui := ui m; web3ModalRef := web3ModalRef m; clock := clock m;
                trace := trace m; started := [] |}).

(** The started functions run, interleaved as the schedule says. *)
Definition settle (env : Env) (sched : list nat) (m : Machine) : Page :=
  drain env sched (launch_started env m).

(** A process that cannot end in an exception. *)
Fixpoint never_raises {A} (p : Proc A) : Prop :=
  match p with
  | PRet _ => True
  | PRaise _ => False
  | PNow _ k => never_raises k
  | PCurrent k => forall r, never_raises (k r)
  | PAwait _ _ k => forall r, never_raises (k r)
  | PYield k => never_raises k
  | PFork _ k => never_raises k
  end.

(** A process that only calls, without [await], functions among [allowed]. *)
Fixpoint forks_only {A} (allowed : Task -> Prop) (p : Proc A) : Prop :=
  match p with
  | PRet _ | PRaise _ => True
  | PNow _ k => forks_only allowed k
  | PCurrent k => forall r, forks_only allowed (k r)
  | PAwait _ _ k => forall r, forks_only allowed (k r)
  | PYield k => forks_only allowed k
  | PFork t k => allowed t /\ forks_only allowed k
  end.

Definition is_read (t : Task) : Prop :=
  t = Task_checkIfAddressInWhitelist \/ t = Task_getNumberOfWhitelisted.

(** Nothing is unhandled and no suspended process can end in an
    exception. *)
Definition guarded (pg : Page) : Prop :=
  unhandled pg = [] /\ Forall never_raises (pending pg).

(** A process that, with the connector in place, makes calls and waits,
    writing nothing, until it reaches [final]. *)
Inductive leads_to (final : Proc unit) : Proc unit -> Prop :=
| leads_here : leads_to final final
| leads_current k :
    leads_to final (k (Some the_modal)) -> leads_to final (PCurrent k)
| leads_await B ev (oracle : nat -> Settled B) k :
    (forall t, leads_to final (k (oracle t))) ->
    leads_to final (PAwait ev oracle k)
| leads_yield k : leads_to final k -> leads_to final (PYield k).

(** The last statements of the three tasks of a first visit when nothing
    fails: [connectWallet] sets [walletConnected] and calls the two reads,
    the membership check stores the answer, the count read stores the
    count. *)
Definition connect_end : Proc unit :=
  PNow (fun m => snd (setWalletConnected true m))
    (PFork Task_checkIfAddressInWhitelist
       (PFork Task_getNumberOfWhitelisted (PRet tt))).

Definition membership_end (member : bool) : Proc unit :=
  sync (setJoinedWhitelist member).

Definition count_end (n : Z) : Proc unit := sync (setNumberOfWhitelisted n).

(** The state cells of a first visit, by what has been written so far. *)
Definition ui_at (u0 : UIState) (member : bool) (n : Z)
    (connected joined counted : bool) : UIState :=
  {| walletConnected := if connected then true else walletConnected u0;
     joinedWhitelist := if joined then member else joinedWhitelist u0;
     loading := loading u0;
     numberOfWhitelisted := if counted then n else numberOfWhitelisted u0 |}.

(** The suspended processes and the cells at the moments of a first visit:
    connecting; both reads in flight, in either order; one of them done; both
    done. *)
Inductive visit_state (u0 : UIState) (member : bool) (n : Z) :
  list (Proc unit) -> UIState -> Prop :=
| visit_connecting w :
    leads_to connect_end w ->
    visit_state u0 member n [w] (ui_at u0 member n false false false)
| visit_member_count c k :
    leads_to (membership_end member) c -> leads_to (count_end n) k ->
    visit_state u0 member n [c; k] (ui_at u0 member n true false false)
| visit_count_member k c :
    leads_to (count_end n) k -> leads_to (membership_end member) c ->
    visit_state u0 member n [k; c] (ui_at u0 member n true false false)
| visit_member_left c :
    leads_to (membership_end member) c ->
    visit_state u0 member n [c] (ui_at u0 member n true false true)
| visit_count_left k :
    leads_to (count_end n) k ->
    visit_state u0 member n [k] (ui_at u0 member n true true false)
| visit_done :
    visit_state u0 member n [] (ui_at u0 member n true true true).

Definition visiting (u0 : UIState) (member : bool) (n : Z) (pg : Page) : Prop :=
  web3ModalRef (machine pg) = Some the_modal
  /\ unhandled pg = []
  /\ visit_state u0 member n (pending pg) (ui (machine pg)).

(** * Properties *)

(** ** Running asynchronous code step by step *)

Lemma bind_Ok {A B} (c : Async A) (k : A -> Async B) m a m1 :
  c m = (Ok a, m1) -> bind c k m = k a m1.
Proof. intros H. unfold bind. rewrite H. reflexivity. Qed.

Lemma bind_Throw {A B} (c : Async A) (k : A -> Async B) m e m1 :
  c m = (Throw e, m1) -> bind c k m = (Throw e, m1).
Proof. intros H. unfold bind. rewrite H. reflexivity. Qed.

Lemma try_catch_Ok {A} (c : Async A) h m a m1 :
  c m = (Ok a, m1) -> try_catch c h m = (Ok a, m1).
Proof. intros H. unfold try_catch. rewrite H. reflexivity. Qed.

Lemma try_catch_Throw {A} (c : Async A) h m e m1 :
  c m = (Throw e, m1) -> try_catch c h m = h e m1.
Proof. intros H. unfold try_catch. rewrite H. reflexivity. Qed.

Lemma await_Fulfilled {A} ev (oracle : nat -> Settled A) m a :
  oracle (clock m) = Fulfilled a -> await ev oracle m = (Ok a, tick (log ev m)).
Proof. intros H. unfold await. rewrite H. reflexivity. Qed.

Lemma await_Rejected {A} ev (oracle : nat -> Settled A) m e :
  oracle (clock m) = Rejected e ->
  await ev oracle m = (Throw (External e), tick (log ev m)).
Proof. intros H. unfold await. rewrite H. reflexivity. Qed.

Lemma getProviderOrSigner_case env needSigner m :
  gps_case env needSigner m (getProviderOrSigner env needSigner m).
Proof.
  unfold getProviderOrSigner.
  destruct (web3ModalRef m) as [w|] eqn:Hw.
  2:{ rewrite (bind_Throw _ _ m TypeError m).
      - now constructor.
      - unfold current_modal. now rewrite Hw. }
  rewrite (bind_Ok _ _ m w m) by (unfold current_modal; now rewrite Hw).
  destruct (modal_connect env (clock m) w) as [p|e] eqn:Hc.
  2:{ erewrite bind_Throw by (apply await_Rejected; exact Hc).
      eapply gps_connect_rejected; eauto. }
  erewrite bind_Ok by (apply await_Fulfilled; exact Hc).
  fold (after_connect m).
  destruct (provider_getNetwork env (S (clock m)) (mkWeb3Provider p)) as [id|e] eqn:Hn.
  2:{ erewrite bind_Throw by (apply await_Rejected; exact Hn).
      eapply gps_network_rejected; eauto. }
  erewrite bind_Ok by (apply await_Fulfilled; exact Hn).
  fold (after_network m).
  destruct (Z.eqb_spec id 4) as [->|Hid]; cbn [negb].
  - destruct needSigner; unfold ret.
    + apply (gps_accessor env true m w p); assumption.
    + apply (gps_accessor env false m w p); assumption.
  - eapply gps_wrong_network; eauto.
Qed.

(** The trace of a machine built with [log], [tick] and the setters, as the
    starting trace followed by a list. *)
Ltac trace_norm :=
  cbn [trace ui clock started web3ModalRef log tick with_ui enqueue assign_ref
       after_connect after_network setLoading setNumberOfWhitelisted
       setJoinedWhitelist setWalletConnected fst snd];
  rewrite <- ?app_assoc; cbn [app].

(** A call of [getProviderOrSigner] writes no state cell, keeps the
    reference and the started tasks, and only talks to the wallet. *)
Lemma getProviderOrSigner_quiet env needSigner m :
  let m1 := snd (getProviderOrSigner env needSigner m) in
  ui m1 = ui m /\ web3ModalRef m1 = web3ModalRef m /\ started m1 = started m
  /\ exists evs, trace m1 = trace m ++ evs
       /\ Forall (fun ev => wallet_event ev = true) evs.
Proof.
  destruct (getProviderOrSigner_case env needSigner m); cbn [snd];
    repeat split; try reflexivity.
  - exists []. now rewrite app_nil_r.
  - exists [Web3ModalConnect]. trace_norm. split; [reflexivity|].
    repeat constructor.
  - exists [Web3ModalConnect; GetNetwork]. trace_norm. split; [reflexivity|].
    repeat constructor.
  - exists [Web3ModalConnect; GetNetwork; Alert "Change the network to Rinkeby"].
    trace_norm. split; [reflexivity|]. repeat constructor.
  - exists [Web3ModalConnect; GetNetwork]. trace_norm. split; [reflexivity|].
    repeat constructor.
Qed.

Lemma wallet_event_not_setter evs :
  Forall (fun ev => wallet_event ev = true) evs ->
  Forall (fun ev => is_setter ev = false) evs.
Proof.
  apply Forall_impl. intros [] H; try reflexivity; discriminate H.
Qed.

(** The handlers that wrap their body in [try]/[catch] and log the error
    always return normally. *)
Lemma logged_returns (body : Async unit) m :
  fst (try_catch body (fun err => console_error err) m) = Ok tt.
Proof.
  unfold try_catch. destruct (body m) as [[[]|e] m1]; reflexivity.
Qed.

Lemma getNumberOfWhitelisted_returns env m :
  fst (getNumberOfWhitelisted env m) = Ok tt.
Proof. apply logged_returns. Qed.

(** ** What a computation leaves alone *)

Section Frames.

Variable R : Machine -> Machine -> Prop.
Hypothesis R_refl : forall m, R m m.
Hypothesis R_trans : forall m1 m2 m3, R m1 m2 -> R m2 m3 -> R m1 m3.

Lemma respects_ret {A} (a : A) : respects R (ret a).
Proof. intros m. apply R_refl. Qed.

Lemma respects_throw {A} e : respects R (@throw A e).
Proof. intros m. apply R_refl. Qed.

Lemma respects_bind {A B} (c : Async A) (k : A -> Async B) :
  respects R c -> (forall a, respects R (k a)) -> respects R (bind c k).
Proof.
  intros Hc Hk m. unfold bind. specialize (Hc m).
  destruct (c m) as [[a|e] m1]; cbn [snd] in *.
  - eapply R_trans; [exact Hc | apply Hk].
  - exact Hc.
Qed.

Lemma respects_try_catch {A} (c : Async A) (h : Error -> Async A) :
  respects R c -> (forall e, respects R (h e)) -> respects R (try_catch c h).
Proof.
  intros Hc Hh m. unfold try_catch. specialize (Hc m).
  destruct (c m) as [[a|e] m1]; cbn [snd] in *.
  - exact Hc.
  - eapply R_trans; [exact Hc | apply Hh].
Qed.

End Frames.

Lemma join_frame_refl m : join_frame m m.
Proof.
  repeat split. exists []. split; [now rewrite app_nil_r | constructor].
Qed.

Lemma join_frame_trans m1 m2 m3 :
  join_frame m1 m2 -> join_frame m2 m3 -> join_frame m1 m3.
Proof.
  intros (Hc & Hj & Hr & Hs & evs & Ht & He) (Hc' & Hj' & Hr' & Hs' & evs' & Ht' & He').
  repeat split; try congruence.
  exists (evs ++ evs'). split.
  - rewrite Ht', Ht. now rewrite app_assoc.
  - apply Forall_app. now split.
Qed.

Lemma join_frame_log ev m : join_event ev = true -> join_frame m (log ev m).
Proof.
  intros H. repeat split. exists [ev]. split; [reflexivity | now repeat constructor].
Qed.

Lemma leaves_membership_emit ev :
  join_event ev = true -> respects join_frame (emit ev).
Proof. intros H m. now apply join_frame_log. Qed.

Lemma leaves_membership_await {A} ev (oracle : nat -> Settled A) :
  join_event ev = true -> respects join_frame (await ev oracle).
Proof.
  intros H m. unfold await.
  destruct (oracle (clock m)); cbn [snd];
    (repeat split; exists [ev]; split; [reflexivity | now repeat constructor]).
Qed.

Lemma leaves_membership_setLoading b : respects join_frame (setLoading b).
Proof.
  intros m. repeat split. exists [SetLoading b].
  split; [reflexivity | now repeat constructor].
Qed.

Lemma leaves_membership_setNumberOfWhitelisted n :
  respects join_frame (setNumberOfWhitelisted n).
Proof.
  intros m. repeat split. exists [SetNumberOfWhitelisted n].
  split; [reflexivity | now repeat constructor].
Qed.

Lemma leaves_membership_getProviderOrSigner env needSigner :
  respects join_frame (getProviderOrSigner env needSigner).
Proof.
  intros m.
  destruct (getProviderOrSigner_quiet env needSigner m) as (Hui & Hr & Hs & evs & Ht & He).
  repeat split; try congruence. exists evs. split; [exact Ht|].
  revert He. apply Forall_impl. intros [] H; try reflexivity; discriminate H.
Qed.

Create HintDb frames.

#[local] Hint Resolve join_frame_refl join_frame_trans : frames.

#[local] Hint Resolve leaves_membership_emit leaves_membership_await
  leaves_membership_setLoading leaves_membership_setNumberOfWhitelisted
  leaves_membership_getProviderOrSigner : frames.

Ltac frame_steps :=
  repeat lazymatch goal with
  | |- respects _ (bind _ _) =>
      apply (respects_bind join_frame join_frame_trans); [|intros ?]
  | |- respects _ (try_catch _ _) =>
      apply (respects_try_catch join_frame join_frame_trans); [|intros ?]
  | |- respects _ (ret _) => apply (respects_ret join_frame join_frame_refl)
  | |- _ => solve [unfold console_error; auto with frames]
  end.

Lemma leaves_membership_getNumberOfWhitelisted env :
  respects join_frame (getNumberOfWhitelisted env).
Proof.
  unfold getNumberOfWhitelisted, getNumberOfWhitelisted_try.
  frame_steps.
Qed.

Lemma leaves_membership_addAddressToWhitelist env :
  respects join_frame (addAddressToWhitelist env).
Proof.
  pose proof (leaves_membership_getNumberOfWhitelisted env) as Hcount.
  unfold addAddressToWhitelist, addAddressToWhitelist_try.
  frame_steps.
Qed.

Lemma effect_connected m :
  walletConnected (ui m) = true -> useEffect_walletConnected m = (Ok tt, m).
Proof. intros H. unfold useEffect_walletConnected. rewrite H. reflexivity. Qed.

Lemma button_connected s :
  walletConnected s = true -> handler_of (renderButton s) <> Some H_connectWallet.
Proof.
  intros H. unfold renderButton. rewrite H.
  destruct (joinedWhitelist s), (loading s); discriminate.
Qed.

Lemma react_connected env t m :
  walletConnected (ui m) = true -> join_frame m (snd (react env t m)).
Proof.
  intros H. destruct t; cbn [react].
  - rewrite (effect_connected m H). apply join_frame_refl.
  - unfold click. pose proof (button_connected (ui m) H) as Hb.
    destruct (handler_of (renderButton (ui m))) as [[]|].
    + apply leaves_membership_addAddressToWhitelist.
    + now contradiction Hb.
    + apply join_frame_refl.
Qed.

Lemma session_connected env ts :
  forall m, walletConnected (ui m) = true -> join_frame m (session env ts m).
Proof.
  induction ts as [|t rest IH]; intros m H; cbn [session].
  - apply join_frame_refl.
  - pose proof (react_connected env t m H) as Hstep.
    eapply join_frame_trans; [exact Hstep|].
    apply IH. destruct Hstep as (Hc & _). congruence.
Qed.

(** ** Claims *)

(** *** Rendering *)

Lemma variant_element_inj v1 v2 :
  variant_element v1 = variant_element v2 -> v1 = v2.
Proof. destruct v1, v2; simpl; intros H; try reflexivity; discriminate H. Qed.

(** C2: for every state, [renderButton] returns the element of exactly one
    of the four variants, the one the priority order of the specification
    selects: the connect button when not connected, the thank-you text when
    connected and a member (whatever [loading] is), the loading button, which
    carries no handler, when connected, not a member and loading, and the
    join button, which carries [addAddressToWhitelist], otherwise. *)
Theorem renderButton_variant (s : UIState) :
  renderButton s = variant_element (render_spec s)
  /\ (forall v, renderButton s = variant_element v -> v = render_spec s)
  /\ (forall pending count,
        renderButton (mkUI true true pending count)
        = variant_element MembershipConfirmation)
  /\ handler_of (variant_element LoadingAffordance) = None
  /\ handler_of (variant_element JoinAffordance) = Some H_addAddressToWhitelist
  /\ handler_of (variant_element ConnectAffordance) = Some H_connectWallet.
Proof.
  assert (E : renderButton s = variant_element (render_spec s)).
  { unfold renderButton, render_spec.
    destruct (walletConnected s), (joinedWhitelist s), (loading s); reflexivity. }
  split; [exact E|].
  split.
  { intros v Hv. rewrite E in Hv. symmetry. now apply variant_element_inj. }
  repeat split.
Qed.

(** *** The accessor *)

(** C7: [getProviderOrSigner] never writes a state cell; once the wallet has
    connected on chain 4 it returns, and what it returns is the signer of
    the connected provider if [needSigner] is true and the provider itself
    if it is false; it returns in no other case; and it throws the
    wrong-network error exactly when the wallet connected and reported a
    chain id other than 4. *)
Theorem getProviderOrSigner_accessor env needSigner m :
  ui (snd (getProviderOrSigner env needSigner m)) = ui m
  /\ (forall w p,
        web3ModalRef m = Some w ->
        modal_connect env (clock m) w = Fulfilled p ->
        provider_getNetwork env (S (clock m)) (mkWeb3Provider p) = Fulfilled 4%Z ->
        getProviderOrSigner env needSigner m
        = (Ok (if needSigner then SignerAcc (mkWeb3Provider p)
               else ProviderAcc (mkWeb3Provider p)),
           after_network m))
  /\ (forall acc, fst (getProviderOrSigner env needSigner m) = Ok acc ->
        is_signer acc = needSigner
        /\ exists w p, web3ModalRef m = Some w
             /\ modal_connect env (clock m) w = Fulfilled p
             /\ provider_getNetwork env (S (clock m)) (mkWeb3Provider p)
                = Fulfilled 4%Z
             /\ acc = if needSigner then SignerAcc (mkWeb3Provider p)
                      else ProviderAcc (mkWeb3Provider p))
  /\ (fst (getProviderOrSigner env needSigner m) = Throw WrongNetworkError <->
      exists w p chainId,
        web3ModalRef m = Some w
        /\ modal_connect env (clock m) w = Fulfilled p
        /\ provider_getNetwork env (S (clock m)) (mkWeb3Provider p) = Fulfilled chainId
        /\ chainId <> 4%Z).
Proof.
  split; [apply getProviderOrSigner_quiet|].
  split.
  { intros w p Hw Hc Hn.
    destruct (getProviderOrSigner_case env needSigner m) as
      [Hw' | w' e Hw' Hc' | w' p' e Hw' Hc' Hn' | w' p' id Hw' Hc' Hn' Hid
       | w' p' Hw' Hc' Hn'].
    - congruence.
    - assert (w' = w) by congruence. subst w'. congruence.
    - assert (w' = w) by congruence. subst w'.
      assert (p' = p) by congruence. subst p'. congruence.
    - assert (w' = w) by congruence. subst w'.
      assert (p' = p) by congruence. subst p'. congruence.
    - assert (w' = w) by congruence. subst w'.
      assert (p' = p) by congruence. subst p'. reflexivity. }
  destruct (getProviderOrSigner_case env needSigner m) as
    [Hw | w e Hw Hc | w p e Hw Hc Hn | w p id Hw Hc Hn Hid | w p Hw Hc Hn];
    cbn [fst]; (split; [intros acc Hacc; try discriminate Hacc|]).
  - split; [discriminate|]. intros (w & p & id & Hw' & _). congruence.
  - split; [discriminate|]. intros (w' & p & id & Hw' & Hc' & _). congruence.
  - split; [discriminate|]. intros (w' & p' & id & Hw' & Hc' & Hn' & _).
    assert (p' = p) by congruence. subst p'. congruence.
  - split; [intros _; now exists w, p, id | reflexivity].
  - injection Hacc as <-. split; [now destruct needSigner|]. now exists w, p.
  - split; [discriminate|]. intros (w' & p' & id & Hw' & Hc' & Hn' & Hid).
    assert (p' = p) by congruence. subst p'. congruence.
Qed.

Lemma getProviderOrSigner_accessor_witness :
  getProviderOrSigner env_rinkeby true mounted
  = (Ok (SignerAcc (mkWeb3Provider 0)), after_network mounted)
  /\ getProviderOrSigner env_rinkeby false mounted
     = (Ok (ProviderAcc (mkWeb3Provider 0)), after_network mounted)
  /\ fst (getProviderOrSigner env_mainnet true mounted) = Throw WrongNetworkError.
Proof.
  split; [|split].
  - exact (proj1 (proj2 (getProviderOrSigner_accessor env_rinkeby true mounted))
             the_modal 0 eq_refl eq_refl eq_refl).
  - exact (proj1 (proj2 (getProviderOrSigner_accessor env_rinkeby false mounted))
             the_modal 0 eq_refl eq_refl eq_refl).
  - apply (proj2 (proj2 (proj2 (getProviderOrSigner_accessor env_mainnet true mounted)))).
    exists the_modal, 0, 1%Z. repeat split. discriminate.
Defined.

(** *** Connecting on the wrong network *)

(** C4: when the wallet connects and reports a chain id other than 4, the
    alert is shown and [getProviderOrSigner] throws the wrong-network error;
    [connectWallet], which awaits it, stops there: it logs that error, writes
    no state cell (so [walletConnected] stays false if it was), and starts
    neither read. *)
Theorem connect_wrong_network env m w p chainId :
  web3ModalRef m = Some w ->
  modal_connect env (clock m) w = Fulfilled p ->
  provider_getNetwork env (S (clock m)) (mkWeb3Provider p) = Fulfilled chainId ->
  chainId <> 4%Z ->
  let alerted := log (Alert "Change the network to Rinkeby") (after_network m) in
  (forall needSigner,
      getProviderOrSigner env needSigner m = (Throw WrongNetworkError, alerted))
  /\ connectWallet env m = (Ok tt, log (ConsoleError WrongNetworkError) alerted)
  /\ ui (snd (connectWallet env m)) = ui m
  /\ (walletConnected (ui m) = false ->
      walletConnected (ui (snd (connectWallet env m))) = false)
  /\ trace (snd (connectWallet env m))
     = trace m ++ [Web3ModalConnect; GetNetwork;
                   Alert "Change the network to Rinkeby";
                   ConsoleError WrongNetworkError]
  /\ started (snd (connectWallet env m)) = started m.
Proof.
  intros Hw Hc Hn Hid alerted.
  assert (G : forall needSigner,
             getProviderOrSigner env needSigner m = (Throw WrongNetworkError, alerted)).
  { intros needSigner.
    destruct (getProviderOrSigner_case env needSigner m) as
      [Hw' | w' e Hw' Hc' | w' p' e Hw' Hc' Hn' | w' p' id Hw' Hc' Hn' Hid'
       | w' p' Hw' Hc' Hn'].
    - congruence.
    - assert (w' = w) by congruence. subst w'. congruence.
    - assert (w' = w) by congruence. subst w'.
      assert (p' = p) by congruence. subst p'. congruence.
    - reflexivity.
    - assert (w' = w) by congruence. subst w'.
      assert (p' = p) by congruence. subst p'. congruence. }
  assert (C : connectWallet env m = (Ok tt, log (ConsoleError WrongNetworkError) alerted)).
  { unfold connectWallet, connectWallet_try.
    erewrite try_catch_Throw by (apply bind_Throw; apply G). reflexivity. }
  split; [exact G|]. split; [exact C|]. rewrite C. subst alerted.
  repeat split.
  - intros H. exact H.
  - now trace_norm.
Qed.

Lemma connect_wrong_network_witness :
  walletConnected (ui (snd (connectWallet env_mainnet mounted))) = false.
Proof.
  refine (proj1 (proj2 (proj2 (proj2
    (connect_wrong_network env_mainnet mounted the_modal 0 1%Z _ _ _ _)))) _);
    try reflexivity.
  discriminate.
Defined.

(** *** Failed reads *)



(** *** Joining the whitelist *)

(** C5: when the submission fails (no signer, or the contract call is
    rejected, as when the user declines it in the wallet),
    [addAddressToWhitelist] returns normally with the error logged last, no
    state setter was called, and [loading], as every other cell, is what it
    was before the call. *)
Theorem join_submission_failure env m e :
  submission_failure env m e ->
  exists m' evs,
    addAddressToWhitelist env m = (Ok tt, m')
    /\ ui m' = ui m
    /\ loading (ui m') = loading (ui m)
    /\ trace m' = trace m ++ evs ++ [ConsoleError e]
    /\ Forall (fun ev => is_setter ev = false) evs.
Proof.
  intros Hfail.
  destruct (getProviderOrSigner_quiet env true m) as (Hui & _ & _ & evs & Htr & Hevs).
  apply wallet_event_not_setter in Hevs.
  unfold addAddressToWhitelist, addAddressToWhitelist_try.
  destruct Hfail as [e m1 E | signer m1 e E Hsub]; rewrite E in *; cbn [snd] in *.
  - erewrite try_catch_Throw by (apply bind_Throw; exact E).
    eexists _, evs. split; [reflexivity|]. trace_norm. rewrite Htr, Hui.
    repeat split; [now rewrite <- !app_assoc | exact Hevs].
  - erewrite try_catch_Throw
      by (erewrite bind_Ok by exact E; apply bind_Throw;
          apply await_Rejected; exact Hsub).
    eexists _, (evs ++ [CallAddAddressToWhitelist (whitelist_contract env signer)]).
    split; [reflexivity|]. trace_norm. rewrite Htr, Hui.
    repeat split; [now rewrite <- !app_assoc|].
    apply Forall_app. split; [exact Hevs|]. now repeat constructor.
Qed.

Lemma join_submission_failure_witness :
  exists m' evs,
    addAddressToWhitelist env_prompt_rejected connected = (Ok tt, m')
    /\ ui m' = ui connected
    /\ loading (ui m') = loading (ui connected)
    /\ trace m' = trace connected ++ evs ++ [ConsoleError (External WalletRejection)]
    /\ Forall (fun ev => is_setter ev = false) evs.
Proof.
  apply (join_submission_failure env_prompt_rejected connected
           (External WalletRejection)).
  apply (submit_rejected env_prompt_rejected connected
           (SignerAcc (mkWeb3Provider 0)) (after_network connected) WalletRejection);
    reflexivity.
Defined.

(** C1, what the code does: when the transaction was submitted and
    [tx.wait()] rejects, [addAddressToWhitelist] returns normally with the
    error logged, and [loading] is true: [setLoading(true)] ran, the
    exception skipped [setLoading(false)], and the [catch] block only
    logs. *)
Theorem join_wait_failure_leaves_loading env m e :
  confirmation_failure env m e ->
  exists m' evs tx,
    addAddressToWhitelist env m = (Ok tt, m')
    /\ loading (ui m') = true
    /\ trace m' = trace m ++ evs
                  ++ [SetLoading true; TxWait tx; ConsoleError (External e)].
Proof.
  intros [signer m1 tx e' E Hsub Hwait].
  destruct (getProviderOrSigner_quiet env true m) as (_ & _ & _ & evs & Htr & _).
  rewrite E in Htr. cbn [snd] in Htr.
  unfold addAddressToWhitelist, addAddressToWhitelist_try.
  erewrite try_catch_Throw
    by (erewrite bind_Ok by exact E;
        erewrite bind_Ok by (apply await_Fulfilled; exact Hsub);
        erewrite bind_Ok by reflexivity;
        apply bind_Throw; apply await_Rejected; exact Hwait).
  eexists _, (evs ++ [CallAddAddressToWhitelist (whitelist_contract env signer)]), tx.
  split; [reflexivity|]. split; [reflexivity|].
  trace_norm. rewrite Htr. now rewrite <- !app_assoc.
Qed.

Lemma join_wait_failure_leaves_loading_witness :
  loading (ui connected) = false
  /\ exists m' evs tx,
       addAddressToWhitelist env_wait_fails connected = (Ok tt, m')
       /\ loading (ui m') = true
       /\ trace m' = trace connected ++ evs
            ++ [SetLoading true; TxWait tx;
                ConsoleError (External (RpcOrContractError (-32000)))].
Proof.
  split; [reflexivity|].
  apply (join_wait_failure_leaves_loading env_wait_fails connected
           (RpcOrContractError (-32000))).
  apply (wait_rejected env_wait_fails connected
           (SignerAcc (mkWeb3Provider 0)) (after_network connected) 7
           (RpcOrContractError (-32000)));
    reflexivity.
Defined.

(** C6: in every execution of [addAddressToWhitelist] whose [try] block
    completes, the wallet connected on chain 4, the contract call made
    through the signer returned a transaction, and [tx.wait()] fulfilled;
    the calls were made in this order: the contract call, [setLoading(true)],
    [tx.wait()], [setLoading(false)]; and the rest of the execution is
    [getNumberOfWhitelisted] run from the machine in which [loading] is
    false again. *)
Theorem join_success_sequence env m :
  fst (addAddressToWhitelist_try env m) = Ok tt ->
  exists w p tx,
    let c := whitelist_contract env (SignerAcc (mkWeb3Provider p)) in
    let m_submitted := tick (log (CallAddAddressToWhitelist c) (after_network m)) in
    let m_pending := snd (setLoading true m_submitted) in
    let m_mined := tick (log (TxWait tx) m_pending) in
    let m_idle := snd (setLoading false m_mined) in
    web3ModalRef m = Some w
    /\ modal_connect env (clock m) w = Fulfilled p
    /\ provider_getNetwork env (S (clock m)) (mkWeb3Provider p) = Fulfilled 4%Z
    /\ contract_addAddressToWhitelist env (S (S (clock m))) c = Fulfilled tx
    /\ tx_wait env (S (S (S (clock m)))) tx = Fulfilled tt
    /\ loading (ui m_pending) = true
    /\ loading (ui m_mined) = true
    /\ loading (ui m_idle) = false
    /\ trace m_idle
       = trace m ++ [Web3ModalConnect; GetNetwork; CallAddAddressToWhitelist c;
                     SetLoading true; TxWait tx; SetLoading false]
    /\ addAddressToWhitelist env m = getNumberOfWhitelisted env m_idle.
Proof.
  intros Hok. unfold addAddressToWhitelist_try in Hok.
  pose proof (getProviderOrSigner_case env true m) as G.
  destruct (getProviderOrSigner env true m) as [o m1] eqn:E.
  inversion G as [Hw Ho | w e Hw Hc Ho | w p e Hw Hc Hn Ho
                  | w p id Hw Hc Hn Hid Ho | w p Hw Hc Hn Ho]; subst o m1;
    try (erewrite bind_Throw in Hok by exact E; discriminate Hok).
  erewrite bind_Ok in Hok by exact E.
  set (c := whitelist_contract env (SignerAcc (mkWeb3Provider p))) in *.
  destruct (contract_addAddressToWhitelist env (S (S (clock m))) c) as [tx|e] eqn:Hsub.
  2:{ erewrite bind_Throw in Hok by (apply await_Rejected; exact Hsub).
      discriminate Hok. }
  erewrite bind_Ok in Hok by (apply await_Fulfilled; exact Hsub).
  erewrite bind_Ok in Hok by reflexivity.
  destruct (tx_wait env (S (S (S (clock m)))) tx) as [[]|e] eqn:Hwait.
  2:{ erewrite bind_Throw in Hok by (apply await_Rejected; exact Hwait).
      discriminate Hok. }
  exists w, p, tx. cbv zeta. fold c.
  repeat (split; [first [assumption | reflexivity | now trace_norm]|]).
  unfold addAddressToWhitelist, addAddressToWhitelist_try.
  set (m_idle := snd (setLoading false _)).
  assert (T : forall k : Accessor -> Async unit,
             bind (getProviderOrSigner env true) k m
             = k (SignerAcc (mkWeb3Provider p)) (after_network m))
    by (intros k; now apply bind_Ok).
  pose proof (getNumberOfWhitelisted_returns env m_idle) as R.
  destruct (getNumberOfWhitelisted env m_idle) as [o m'] eqn:N.
  cbn [fst] in R. subst o.
  apply try_catch_Ok. rewrite T. fold c.
  erewrite bind_Ok by (apply await_Fulfilled; exact Hsub).
  erewrite bind_Ok by reflexivity.
  erewrite bind_Ok by (apply await_Fulfilled; exact Hwait).
  erewrite bind_Ok by reflexivity.
  exact N.
Qed.

Lemma join_success_sequence_witness :
  numberOfWhitelisted (ui (snd (addAddressToWhitelist env_rinkeby connected))) = 4%Z.
Proof.
  destruct (join_success_sequence env_rinkeby connected eq_refl)
    as (w & p & tx & _ & _ & _ & Hsub & _ & _ & _ & _ & _ & Hrest).
  injection Hsub as <-. rewrite Hrest. reflexivity.
Defined.

(** C10: [addAddressToWhitelist] never changes [joinedWhitelist], whatever
    the outcome: it starts no task, and none of its events reads the
    address, asks the contract about membership or sets [joinedWhitelist].
    So after a join made while connected and not a member, once [loading] is
    false again the join button is shown again, and [joinedWhitelist] stays
    what it was through every further effect run and click. *)
Theorem join_leaves_membership env m :
  joinedWhitelist (ui (snd (addAddressToWhitelist env m))) = joinedWhitelist (ui m)
  /\ started (snd (addAddressToWhitelist env m)) = started m
  /\ (exists evs,
        trace (snd (addAddressToWhitelist env m)) = trace m ++ evs
        /\ Forall (fun ev => membership_event ev = false) evs)
  /\ (walletConnected (ui m) = true ->
      joinedWhitelist (ui m) = false ->
      loading (ui (snd (addAddressToWhitelist env m))) = false ->
      renderButton (ui (snd (addAddressToWhitelist env m)))
      = variant_element JoinAffordance)
  /\ (walletConnected (ui m) = true ->
      forall ts,
        joinedWhitelist (ui (session env ts (snd (addAddressToWhitelist env m))))
        = joinedWhitelist (ui m)).
Proof.
  destruct (leaves_membership_addAddressToWhitelist env m)
    as (Hc & Hj & _ & Hs & evs & Ht & He).
  split; [exact Hj|]. split; [exact Hs|]. split.
  { exists evs. split; [exact Ht|]. revert He. apply Forall_impl.
    intros [] H; try reflexivity; discriminate H. }
  split.
  - intros Hw Hn Hl. unfold renderButton. rewrite Hc, Hw, Hj, Hn, Hl. reflexivity.
  - intros Hw ts.
    destruct (session_connected env ts (snd (addAddressToWhitelist env m)))
      as (_ & Hj' & _); congruence.
Qed.

Lemma join_leaves_membership_witness :
  fst (addAddressToWhitelist_try env_rinkeby connected) = Ok tt
  /\ joinedWhitelist (ui (snd (addAddressToWhitelist env_rinkeby connected))) = false
  /\ renderButton (ui (snd (addAddressToWhitelist env_rinkeby connected)))
     = variant_element JoinAffordance.
Proof.
  destruct (join_leaves_membership env_rinkeby connected)
    as (Hj & _ & _ & Hrender & _).
  split; [reflexivity|]. split; [exact Hj|].
  apply Hrender; reflexivity.
Defined.

(** *** The membership check *)

(** C8: in every execution of [checkIfAddressInWhitelist] whose [try] block
    completes, the accessor obtained is the signer of the connected
    provider, the address is read from that signer, [whitelistedAddress] is
    called with that address on the contract bound to that signer, and
    [joinedWhitelist] is set to the boolean the call returned; nothing else
    is written. *)
Theorem membership_check_success env m :
  fst (checkIfAddressInWhitelist_try env m) = Ok tt ->
  exists w p addr member,
    let signer := SignerAcc (mkWeb3Provider p) in
    let c := whitelist_contract env signer in
    let m_asked :=
      tick (log (CallWhitelistedAddress c addr)
                (tick (log (GetAddress signer) (after_network m)))) in
    web3ModalRef m = Some w
    /\ modal_connect env (clock m) w = Fulfilled p
    /\ provider_getNetwork env (S (clock m)) (mkWeb3Provider p) = Fulfilled 4%Z
    /\ signer_getAddress env (S (S (clock m))) signer = Fulfilled addr
    /\ contract_whitelistedAddress env (S (S (S (clock m)))) c addr = Fulfilled member
    /\ is_signer (runner c) = true
    /\ checkIfAddressInWhitelist env m = setJoinedWhitelist member m_asked
    /\ ui (snd (checkIfAddressInWhitelist env m))
       = {| walletConnected := walletConnected (ui m);
            joinedWhitelist := member;
            loading := loading (ui m);
            numberOfWhitelisted := numberOfWhitelisted (ui m) |}
    /\ trace (snd (checkIfAddressInWhitelist env m))
       = trace m ++ [Web3ModalConnect; GetNetwork; GetAddress signer;
                     CallWhitelistedAddress c addr; SetJoinedWhitelist member].
Proof.
  intros Hok. unfold checkIfAddressInWhitelist_try in Hok.
  pose proof (getProviderOrSigner_case env true m) as G.
  destruct (getProviderOrSigner env true m) as [o m1] eqn:E.
  inversion G as [Hw Ho | w e Hw Hc Ho | w p e Hw Hc Hn Ho
                  | w p id Hw Hc Hn Hid Ho | w p Hw Hc Hn Ho]; subst o m1;
    try (erewrite bind_Throw in Hok by exact E; discriminate Hok).
  erewrite bind_Ok in Hok by exact E.
  set (signer := SignerAcc (mkWeb3Provider p)) in *.
  set (c := whitelist_contract env signer) in *.
  destruct (signer_getAddress env (S (S (clock m))) signer) as [addr|e] eqn:Ha.
  2:{ erewrite bind_Throw in Hok by (apply await_Rejected; exact Ha).
      discriminate Hok. }
  erewrite bind_Ok in Hok by (apply await_Fulfilled; exact Ha).
  destruct (contract_whitelistedAddress env (S (S (S (clock m)))) c addr)
    as [member|e] eqn:Hb.
  2:{ erewrite bind_Throw in Hok by (apply await_Rejected; exact Hb).
      discriminate Hok. }
  exists w, p, addr, member. cbv zeta. fold signer. fold c.
  assert (R : checkIfAddressInWhitelist env m
              = setJoinedWhitelist member
                  (tick (log (CallWhitelistedAddress c addr)
                     (tick (log (GetAddress signer) (after_network m)))))).
  { unfold checkIfAddressInWhitelist, checkIfAddressInWhitelist_try.
    apply try_catch_Ok.
    erewrite bind_Ok by exact E. fold signer. fold c.
    erewrite bind_Ok by (apply await_Fulfilled; exact Ha).
    erewrite bind_Ok by (apply await_Fulfilled; exact Hb).
    reflexivity. }
  rewrite R.
  repeat (split; [first [assumption | reflexivity]|]).
  now trace_norm.
Qed.

Lemma membership_check_success_witness :
  joinedWhitelist (ui (snd (checkIfAddressInWhitelist env_rinkeby connected))) = false.
Proof.
  destruct (membership_check_success env_rinkeby connected eq_refl)
    as (w & p & addr & member & _ & _ & _ & _ & Hb & _ & _ & Hui & _).
  injection Hb as <-. rewrite Hui. reflexivity.
Defined.

(** *** While the wallet is connected *)

(** C9 as stated fails: with the wallet connected, a click on the join
    button calls [web3Modal.connect()] twice, once for the signer and once
    for the count refresh. *)
Lemma join_click_reconnects :
  walletConnected (ui connected) = true
  /\ trace (snd (click env_rinkeby connected))
     = [Web3ModalConnect; GetNetwork;
        CallAddAddressToWhitelist
          (whitelist_contract env_rinkeby (SignerAcc (mkWeb3Provider 0)));
        SetLoading true; TxWait 7; SetLoading false;
        Web3ModalConnect; GetNetwork;
        CallNumAddressesWhitelisted
          (whitelist_contract env_rinkeby (ProviderAcc (mkWeb3Provider 0)));
        SetNumberOfWhitelisted 4]
  /\ ~ (forall env m,
          walletConnected (ui m) = true ->
          forall evs, trace (snd (click env m)) = trace m ++ evs ->
                      ~ In Web3ModalConnect evs).
Proof.
  split; [reflexivity|]. split; [reflexivity|].
  intros H.
  apply (H env_rinkeby connected eq_refl
           (trace (snd (click env_rinkeby connected))) eq_refl).
  left. reflexivity.
Qed.

(** C9 amended: while [walletConnected] is true, the effect does nothing,
    the button shown does not carry [connectWallet], and no sequence of
    effect runs and clicks creates a wallet connector, calls
    [setWalletConnected], starts a task or replaces the reference: every
    event of such a session is one of those [addAddressToWhitelist] may
    produce. *)
Theorem connected_never_reruns_connectWallet env m ts :
  walletConnected (ui m) = true ->
  useEffect_walletConnected m = (Ok tt, m)
  /\ handler_of (renderButton (ui m)) <> Some H_connectWallet
  /\ walletConnected (ui (session env ts m)) = true
  /\ web3ModalRef (session env ts m) = web3ModalRef m
  /\ started (session env ts m) = started m
  /\ exists evs,
       trace (session env ts m) = trace m ++ evs
       /\ Forall (fun ev => join_event ev = true) evs
       /\ (forall opts, ~ In (NewWeb3Modal opts) evs)
       /\ (forall b, ~ In (SetWalletConnected b) evs).
Proof.
  intros H.
  destruct (session_connected env ts m H) as (Hc & _ & Hr & Hs & evs & Ht & He).
  split; [now apply effect_connected|].
  split; [now apply button_connected|].
  split; [congruence|]. split; [exact Hr|]. split; [exact Hs|].
  exists evs. split; [exact Ht|]. split; [exact He|].
  rewrite Forall_forall in He.
  split; intros x Hin; apply He in Hin; discriminate Hin.
Qed.

Lemma connected_never_reruns_connectWallet_witness :
  walletConnected
    (ui (session env_rinkeby [EffectRuns; ButtonClicked; EffectRuns] connected))
  = true.
Proof.
  exact (proj1 (proj2 (proj2
    (connected_never_reruns_connectWallet env_rinkeby connected
       [EffectRuns; ButtonClicked; EffectRuns] eq_refl)))).
Defined.

(** * Further properties *)

(** ** More on the accessor *)

Lemma getProviderOrSigner_Ok env needSigner m acc m1 :
  getProviderOrSigner env needSigner m = (Ok acc, m1) ->
  m1 = after_network m
  /\ is_signer acc = needSigner
  /\ exists w p,
       web3ModalRef m = Some w
       /\ modal_connect env (clock m) w = Fulfilled p
       /\ provider_getNetwork env (S (clock m)) (mkWeb3Provider p) = Fulfilled 4%Z
       /\ acc = if needSigner then SignerAcc (mkWeb3Provider p)
                else ProviderAcc (mkWeb3Provider p).
Proof.
  intros E. pose proof (getProviderOrSigner_case env needSigner m) as G.
  rewrite E in G.
  inversion G as [| | | | w p Hw Hc Hn Hacc]; subst.
  split; [reflexivity|]. split; [now destruct needSigner|].
  now exists w, p.
Qed.

Lemma getProviderOrSigner_undefined env needSigner m :
  web3ModalRef m = None ->
  getProviderOrSigner env needSigner m = (Throw TypeError, m).
Proof.
  intros Hw.
  destruct (getProviderOrSigner_case env needSigner m); congruence.
Qed.

Lemma getProviderOrSigner_defined env needSigner m e m1 :
  web3ModalRef m <> None ->
  getProviderOrSigner env needSigner m = (Throw e, m1) ->
  e <> TypeError.
Proof.
  intros Hw E. pose proof (getProviderOrSigner_case env needSigner m) as G.
  rewrite E in G.
  inversion G; subst; try discriminate. contradiction.
Qed.

(** ** The outcome tables *)

Lemma getNumberOfWhitelisted_case env m :
  count_case env m (getNumberOfWhitelisted env m).
Proof.
  unfold getNumberOfWhitelisted, getNumberOfWhitelisted_try.
  destruct (getProviderOrSigner env false m) as [[acc|e] m1] eqn:E.
  - destruct (contract_numAddressesWhitelisted env (clock m1)
                (whitelist_contract env acc)) as [n|e] eqn:Hn.
    + erewrite try_catch_Ok.
      * eapply count_stored; eassumption.
      * erewrite bind_Ok by exact E.
        erewrite bind_Ok by (apply await_Fulfilled; exact Hn). reflexivity.
    + erewrite try_catch_Throw
        by (erewrite bind_Ok by exact E; apply bind_Throw;
            apply await_Rejected; exact Hn).
      eapply count_rejected; eassumption.
  - erewrite try_catch_Throw by (apply bind_Throw; exact E).
    eapply count_no_provider; eassumption.
Qed.

Lemma checkIfAddressInWhitelist_case env m :
  membership_case env m (checkIfAddressInWhitelist env m).
Proof.
  unfold checkIfAddressInWhitelist, checkIfAddressInWhitelist_try.
  destruct (getProviderOrSigner env true m) as [[acc|e] m1] eqn:E.
  - destruct (signer_getAddress env (clock m1) acc) as [a|e] eqn:Ha.
    + destruct (contract_whitelistedAddress env (S (clock m1))
                  (whitelist_contract env acc) a) as [b|e] eqn:Hb.
      * erewrite try_catch_Ok.
        -- eapply membership_stored; eassumption.
        -- erewrite bind_Ok by exact E.
           erewrite bind_Ok by (apply await_Fulfilled; exact Ha).
           erewrite bind_Ok by (apply await_Fulfilled; exact Hb). reflexivity.
      * erewrite try_catch_Throw
          by (erewrite bind_Ok by exact E;
              erewrite bind_Ok by (apply await_Fulfilled; exact Ha);
              apply bind_Throw; apply await_Rejected; exact Hb).
        eapply membership_rejected; eassumption.
    + erewrite try_catch_Throw
        by (erewrite bind_Ok by exact E; apply bind_Throw;
            apply await_Rejected; exact Ha).
      eapply membership_no_address; eassumption.
  - erewrite try_catch_Throw by (apply bind_Throw; exact E).
    eapply membership_no_signer; eassumption.
Qed.

Lemma addAddressToWhitelist_case env m :
  join_case env m (addAddressToWhitelist env m).
Proof.
  unfold addAddressToWhitelist, addAddressToWhitelist_try.
  destruct (getProviderOrSigner env true m) as [[acc|e] m1] eqn:E.
  - destruct (contract_addAddressToWhitelist env (clock m1)
                (whitelist_contract env acc)) as [tx|e] eqn:Hs.
    + destruct (tx_wait env (S (clock m1)) tx) as [[]|e] eqn:Hwt.
      * pose proof (join_mined env m acc m1 tx E Hs Hwt) as J.
        pose proof (getNumberOfWhitelisted_returns env
          (snd (setLoading false
             (tick (log (TxWait tx)
                (snd (setLoading true
                   (tick (log (CallAddAddressToWhitelist
                                 (whitelist_contract env acc)) m1)))))))))
          as R.
        destruct (getNumberOfWhitelisted env _) as [o m'] eqn:N.
        cbn [fst] in R. subst o.
        erewrite try_catch_Ok; [exact J|].
        erewrite bind_Ok by exact E.
        erewrite bind_Ok by (apply await_Fulfilled; exact Hs).
        erewrite bind_Ok by reflexivity.
        erewrite bind_Ok by (apply await_Fulfilled; exact Hwt).
        erewrite bind_Ok by reflexivity.
        exact N.
      * erewrite try_catch_Throw
          by (erewrite bind_Ok by exact E;
              erewrite bind_Ok by (apply await_Fulfilled; exact Hs);
              erewrite bind_Ok by reflexivity;
              apply bind_Throw; apply await_Rejected; exact Hwt).
        eapply join_not_mined; eassumption.
    + erewrite try_catch_Throw
        by (erewrite bind_Ok by exact E; apply bind_Throw;
            apply await_Rejected; exact Hs).
      eapply join_not_submitted; eassumption.
  - erewrite try_catch_Throw by (apply bind_Throw; exact E).
    eapply join_no_signer; eassumption.
Qed.

Lemma connectWallet_case env m :
  connect_case env m (connectWallet env m).
Proof.
  unfold connectWallet, connectWallet_try.
  destruct (getProviderOrSigner env false m) as [[acc|e] m1] eqn:E.
  - erewrite try_catch_Ok.
    + eapply connect_done; eassumption.
    + erewrite bind_Ok by exact E. reflexivity.
  - erewrite try_catch_Throw by (apply bind_Throw; exact E).
    eapply connect_failed; eassumption.
Qed.

(** A handler whose call of [getProviderOrSigner] throws logs the error and
    returns. *)
Lemma chain_handler_no_accessor env op m e m1 :
  getProviderOrSigner env (needs_signer op) m = (Throw e, m1) ->
  chain_handler env op m = (Ok tt, log (ConsoleError e) m1).
Proof.
  intros E.
  destruct op as [|[]]; cbn [chain_handler read needs_signer] in *.
  - destruct (addAddressToWhitelist_case env m)
      as [? ? E' | ? ? ? E' | ? ? ? ? E' | ? ? ? E'];
      rewrite E in E'; try discriminate E'. now injection E' as <- <-.
  - destruct (getNumberOfWhitelisted_case env m) as [? ? E' | ? ? ? E' | ? ? ? E'];
      rewrite E in E'; try discriminate E'. now injection E' as <- <-.
  - destruct (checkIfAddressInWhitelist_case env m)
      as [? ? E' | ? ? ? E' | ? ? ? ? E' | ? ? ? ? E'];
      rewrite E in E'; try discriminate E'. now injection E' as <- <-.
Qed.

Lemma connectWallet_no_provider env m e m1 :
  getProviderOrSigner env false m = (Throw e, m1) ->
  connectWallet env m = (Ok tt, log (ConsoleError e) m1).
Proof.
  intros E.
  destruct (connectWallet_case env m) as [e' m1' E' | acc m1' E'];
    rewrite E in E'; [now injection E' as <- <- | discriminate E'].
Qed.

(** ** The count read and the connection *)

(** X1: in every execution of [getNumberOfWhitelisted] whose [try] block
    completes, the accessor is the plain provider (not a signer),
    [numAddressesWhitelisted] is called on the whitelist contract bound to
    it, and [numberOfWhitelisted] is set to what the call returned, as it
    is; no other cell changes. *)
Theorem count_read_success env m :
  fst (getNumberOfWhitelisted_try env m) = Ok tt ->
  exists w p n,
    let provider := ProviderAcc (mkWeb3Provider p) in
    let c := whitelist_contract env provider in
    web3ModalRef m = Some w
    /\ modal_connect env (clock m) w = Fulfilled p
    /\ provider_getNetwork env (S (clock m)) (mkWeb3Provider p) = Fulfilled 4%Z
    /\ contract_numAddressesWhitelisted env (S (S (clock m))) c = Fulfilled n
    /\ is_signer (runner c) = false
    /\ ui (snd (getNumberOfWhitelisted env m))
       = {| walletConnected := walletConnected (ui m);
            joinedWhitelist := joinedWhitelist (ui m);
            loading := loading (ui m);
            numberOfWhitelisted := n |}
    /\ trace (snd (getNumberOfWhitelisted env m))
       = trace m ++ [Web3ModalConnect; GetNetwork;
                     CallNumAddressesWhitelisted c; SetNumberOfWhitelisted n].
Proof.
  intros Hok. unfold getNumberOfWhitelisted_try in Hok.
  destruct (getNumberOfWhitelisted_case env m) as
    [e m1 E | acc m1 e E Hn | acc m1 n E Hn].
  - erewrite bind_Throw in Hok by exact E. discriminate Hok.
  - erewrite bind_Ok in Hok by exact E.
    erewrite bind_Throw in Hok by (apply await_Rejected; exact Hn).
    discriminate Hok.
  - destruct (getProviderOrSigner_Ok env false m acc m1 E)
      as (-> & _ & w & p & Hw & Hc & Hnet & ->).
    exists w, p, n. cbv zeta.
    repeat (split; [first [assumption | reflexivity]|]).
    now trace_norm.
Qed.

Lemma count_read_success_witness :
  numberOfWhitelisted (ui (snd (getNumberOfWhitelisted env_first_visit mounted))) = 3%Z.
Proof.
  destruct (count_read_success env_first_visit mounted eq_refl)
    as (w & p & n & _ & _ & _ & Hn & _ & Hui & _).
  injection Hn as <-. rewrite Hui. reflexivity.
Defined.

(** X2: when [getProviderOrSigner] succeeds inside [connectWallet],
    [walletConnected] is set to true and nothing else is written, the
    membership check and then the count read are started (and only they),
    and the handler returns normally. *)
Theorem connectWallet_success env m :
  fst (connectWallet_try env m) = Ok tt ->
  exists w p,
    web3ModalRef m = Some w
    /\ modal_connect env (clock m) w = Fulfilled p
    /\ provider_getNetwork env (S (clock m)) (mkWeb3Provider p) = Fulfilled 4%Z
    /\ fst (connectWallet env m) = Ok tt
    /\ ui (snd (connectWallet env m))
       = {| walletConnected := true;
            joinedWhitelist := joinedWhitelist (ui m);
            loading := loading (ui m);
            numberOfWhitelisted := numberOfWhitelisted (ui m) |}
    /\ started (snd (connectWallet env m))
       = started m ++ [Task_checkIfAddressInWhitelist; Task_getNumberOfWhitelisted]
    /\ web3ModalRef (snd (connectWallet env m)) = web3ModalRef m
    /\ trace (snd (connectWallet env m))
       = trace m ++ [Web3ModalConnect; GetNetwork; SetWalletConnected true].
Proof.
  intros Hok. unfold connectWallet_try in Hok.
  destruct (connectWallet_case env m) as [e m1 E | acc m1 E].
  - erewrite bind_Throw in Hok by exact E. discriminate Hok.
  - destruct (getProviderOrSigner_Ok env false m acc m1 E)
      as (-> & _ & w & p & Hw & Hc & Hnet & ->).
    exists w, p.
    repeat (split; [first [assumption | reflexivity]|]).
    split; [now trace_norm|].
    split; [reflexivity|]. now trace_norm.
Qed.

Lemma connectWallet_success_witness :
  walletConnected (ui (snd (connectWallet env_first_visit mounted))) = true.
Proof.
  destruct (connectWallet_success env_first_visit mounted eq_refl)
    as (w & p & _ & _ & _ & _ & Hui & _).
  rewrite Hui. reflexivity.
Defined.

(** X3: whenever [getProviderOrSigner] fails inside [connectWallet] (the
    user declines the connection, the network cannot be read, the chain is
    not 4, the connector is missing), the handler returns normally with
    that error logged last after wallet events only, writes no state cell
    and starts no read; a page that was disconnected still shows the connect
    button. *)
Theorem connectWallet_failure env m e m1 :
  getProviderOrSigner env false m = (Throw e, m1) ->
  connectWallet env m = (Ok tt, log (ConsoleError e) m1)
  /\ ui (snd (connectWallet env m)) = ui m
  /\ started (snd (connectWallet env m)) = started m
  /\ (exists evs,
        trace (snd (connectWallet env m)) = trace m ++ evs ++ [ConsoleError e]
        /\ Forall (fun ev => wallet_event ev = true) evs)
  /\ (walletConnected (ui m) = false ->
      renderButton (ui (snd (connectWallet env m)))
      = variant_element ConnectAffordance).
Proof.
  intros E.
  destruct (getProviderOrSigner_quiet env false m) as (Hui & _ & Hs & evs & Ht & He).
  rewrite E in Hui, Hs, Ht. cbn [snd] in Hui, Hs, Ht.
  rewrite (connectWallet_no_provider env m e m1 E).
  split; [reflexivity|]. cbn [snd log ui started trace].
  split; [exact Hui|]. split; [exact Hs|]. split.
  - exists evs. split; [rewrite Ht; now rewrite <- app_assoc | exact He].
  - intros Hw. unfold renderButton. rewrite Hui, Hw. reflexivity.
Qed.

Lemma connectWallet_failure_witness :
  renderButton (ui (snd (connectWallet env_connect_declined mounted)))
  = variant_element ConnectAffordance.
Proof.
  refine (proj2 (proj2 (proj2 (proj2
    (connectWallet_failure env_connect_declined mounted
       (External WalletRejection) (after_connect mounted) _)))) _);
    reflexivity.
Defined.

(** ** Failures before the chain is reached *)

(** X5: when [getProviderOrSigner] fails at the start of the join, the
    count read or the membership check, whatever the reason (the wrong
    network included), the handler stops there: it logs that error and
    returns, having made only wallet calls; no contract call is made, no
    transaction is sent or waited for, and no state cell is written. *)
Theorem no_accessor_no_chain_call env op m e m1 :
  getProviderOrSigner env (needs_signer op) m = (Throw e, m1) ->
  chain_handler env op m = (Ok tt, log (ConsoleError e) m1)
  /\ ui (snd (chain_handler env op m)) = ui m
  /\ exists evs,
       trace (snd (chain_handler env op m)) = trace m ++ evs ++ [ConsoleError e]
       /\ Forall (fun ev => wallet_event ev = true) evs
       /\ Forall (fun ev => chain_event ev = false) (evs ++ [ConsoleError e]).
Proof.
  intros E.
  destruct (getProviderOrSigner_quiet env (needs_signer op) m)
    as (Hui & _ & _ & evs & Ht & He).
  rewrite E in Hui, Ht. cbn [snd] in Hui, Ht.
  rewrite (chain_handler_no_accessor env op m e m1 E). cbn [snd log ui trace].
  split; [reflexivity|]. split; [exact Hui|].
  exists evs. split; [rewrite Ht; now rewrite <- app_assoc|].
  split; [exact He|].
  apply Forall_app. split; [|now repeat constructor].
  revert He. apply Forall_impl. intros [] H; try reflexivity; discriminate H.
Qed.

Lemma no_accessor_no_chain_call_witness :
  trace (snd (chain_handler env_mainnet JoinOp connected))
  = [Web3ModalConnect; GetNetwork; Alert "Change the network to Rinkeby";
     ConsoleError WrongNetworkError].
Proof.
  rewrite (proj1 (no_accessor_no_chain_call env_mainnet JoinOp connected
                    WrongNetworkError
                    (log (Alert "Change the network to Rinkeby")
                         (after_network connected)) eq_refl)).
  reflexivity.
Defined.

(** X6: a handler that runs while [web3ModalRef.current] is still undefined
    makes no call at all, neither to the wallet nor to the chain: reading
    [connect] of [undefined] throws, and the handler logs that TypeError
    and returns with the state as it was. *)
Theorem undefined_connector_only_logs env m :
  web3ModalRef m = None ->
  (forall needSigner,
      getProviderOrSigner env needSigner m = (Throw TypeError, m))
  /\ (forall op, chain_handler env op m = (Ok tt, log (ConsoleError TypeError) m))
  /\ connectWallet env m = (Ok tt, log (ConsoleError TypeError) m).
Proof.
  intros Hw.
  split; [intros b; now apply getProviderOrSigner_undefined|].
  split.
  - intros op. apply chain_handler_no_accessor.
    now apply getProviderOrSigner_undefined.
  - apply connectWallet_no_provider.
    now apply getProviderOrSigner_undefined.
Qed.

Lemma undefined_connector_only_logs_witness :
  click env_rinkeby fresh = (Ok tt, log (ConsoleError TypeError) fresh).
Proof.
  exact (proj2 (proj2 (undefined_connector_only_logs env_rinkeby fresh eq_refl))).
Defined.

(** ** Nothing escapes, and the states that lead nowhere *)

Lemma run_task_returns env t m : fst (run_task env t m) = Ok tt.
Proof. destruct t; apply logged_returns. Qed.

Lemma react_returns env t m : fst (react env t m) = Ok tt.
Proof.
  destruct t; cbn [react].
  - unfold useEffect_walletConnected.
    destruct (negb (walletConnected (ui m))); reflexivity.
  - unfold click. destruct (handler_of (renderButton (ui m))) as [[]|];
      [apply logged_returns | apply logged_returns | reflexivity].
Qed.

Lemma step_returns env s m : fst (step env s m) = Ok tt.
Proof.
  destruct s; cbn [step]; [apply react_returns|].
  unfold run_next. destruct (started m); [reflexivity | apply run_task_returns].
Qed.

(** ** The processes are the handlers *)

Lemma bind_ext {A B} (c1 c2 : Async A) (k1 k2 : A -> Async B) m :
  c1 m = c2 m -> (forall a m1, k1 a m1 = k2 a m1) -> bind c1 k1 m = bind c2 k2 m.
Proof.
  intros Hc Hk. unfold bind. rewrite Hc.
  destruct (c2 m) as [[a|e] m1]; [apply Hk | reflexivity].
Qed.

Lemma try_catch_ext {A} (c1 c2 : Async A) (h1 h2 : Error -> Async A) m :
  c1 m = c2 m -> (forall e m1, h1 e m1 = h2 e m1) ->
  try_catch c1 h1 m = try_catch c2 h2 m.
Proof.
  intros Hc Hh. unfold try_catch. rewrite Hc.
  destruct (c2 m) as [[a|e] m1]; [reflexivity | apply Hh].
Qed.

Lemma atomic_bind {A B} (p : Proc A) (k : A -> Proc B) :
  forall m, atomic (bind_p p k) m = bind (atomic p) (fun a => atomic (k a)) m.
Proof.
  induction p as [a|e|f q IH|q IH|C ev oracle q IH|q IH|t q IH]; intros m;
    cbn [bind_p atomic]; unfold bind in *; cbn [atomic]; auto.
Qed.

Lemma atomic_catch {A} (p : Proc A) (h : Error -> Proc A) :
  forall m, atomic (catch_p p h) m
            = try_catch (atomic p) (fun e => atomic (h e)) m.
Proof.
  induction p as [a|e|f q IH|q IH|C ev oracle q IH|q IH|t q IH]; intros m;
    cbn [catch_p atomic]; unfold try_catch in *; cbn [atomic]; auto.
Qed.

Lemma atomic_call {A} (p : Proc A) m : atomic (call_p p) m = atomic p m.
Proof.
  unfold call_p. rewrite atomic_catch. unfold try_catch.
  rewrite atomic_bind. unfold bind.
  destruct (atomic p m) as [[a|e] m1]; reflexivity.
Qed.

Lemma atomic_await {B} ev (oracle : nat -> Settled B) m :
  atomic (await_p ev oracle) m = await ev oracle m.
Proof.
  unfold await_p, await. cbn [atomic]. destruct (oracle (clock m)); reflexivity.
Qed.

Lemma getProviderOrSigner_p_atomic env needSigner m :
  atomic (getProviderOrSigner_p env needSigner) m
  = getProviderOrSigner env needSigner m.
Proof.
  unfold getProviderOrSigner_p, getProviderOrSigner.
  rewrite atomic_bind. apply bind_ext.
  { unfold current_modal_p, current_modal. cbn [atomic].
    destruct (web3ModalRef m); reflexivity. }
  intros modal m1. rewrite atomic_bind. apply bind_ext; [apply atomic_await|].
  intros provider m2. cbv zeta. rewrite atomic_bind.
  apply bind_ext; [apply atomic_await|].
  intros chainId m3.
  destruct (negb (chainId =? 4)%Z); [reflexivity|].
  destruct needSigner; reflexivity.
Qed.

Ltac atomic_steps :=
  repeat first
    [ rewrite atomic_catch; apply try_catch_ext; [|intros ? ?]
    | rewrite atomic_bind; apply bind_ext; [|intros ? ?]
    | rewrite atomic_call
    | apply getProviderOrSigner_p_atomic
    | apply atomic_await
    | reflexivity
    | progress cbv zeta ].

Lemma getNumberOfWhitelisted_p_atomic env m :
  atomic (getNumberOfWhitelisted_p env) m = getNumberOfWhitelisted env m.
Proof.
  unfold getNumberOfWhitelisted_p, getNumberOfWhitelisted,
    getNumberOfWhitelisted_try.
  atomic_steps.
Qed.

Lemma checkIfAddressInWhitelist_p_atomic env m :
  atomic (checkIfAddressInWhitelist_p env) m = checkIfAddressInWhitelist env m.
Proof.
  unfold checkIfAddressInWhitelist_p, checkIfAddressInWhitelist,
    checkIfAddressInWhitelist_try.
  atomic_steps.
Qed.

Lemma addAddressToWhitelist_p_atomic env m :
  atomic (addAddressToWhitelist_p env) m = addAddressToWhitelist env m.
Proof.
  unfold addAddressToWhitelist_p, addAddressToWhitelist,
    addAddressToWhitelist_try.
  atomic_steps. apply getNumberOfWhitelisted_p_atomic.
Qed.

Lemma connectWallet_p_atomic env m :
  atomic (connectWallet_p env) m = connectWallet env m.
Proof.
  unfold connectWallet_p, connectWallet, connectWallet_try.
  atomic_steps.
Qed.

(** Run without interleaving, the process of a task is the task. *)
Lemma task_p_atomic env t m : atomic (task_p env t) m = run_task env t m.
Proof.
  destruct t; cbn [task_p run_task];
    [apply connectWallet_p_atomic | apply checkIfAddressInWhitelist_p_atomic
     | apply getNumberOfWhitelisted_p_atomic].
Qed.

(** ** No process of the component ends in an exception *)

Lemma never_raises_catch {A} (p : Proc A) (h : Error -> Proc A) :
  (forall e, never_raises (h e)) -> never_raises (catch_p p h).
Proof.
  intros Hh.
  induction p as [a|e|f q IH|q IH|C ev oracle q IH|q IH|t q IH];
    cbn [catch_p never_raises]; auto.
Qed.

Lemma never_raises_task env t : never_raises (task_p env t).
Proof.
  destruct t; cbn [task_p];
    unfold connectWallet_p, checkIfAddressInWhitelist_p, getNumberOfWhitelisted_p;
    apply never_raises_catch; intros e; exact I.
Qed.

Lemma forks_only_bind {A B} allowed (p : Proc A) (k : A -> Proc B) :
  forks_only allowed p -> (forall a, forks_only allowed (k a)) ->
  forks_only allowed (bind_p p k).
Proof.
  intros Hp Hk.
  induction p as [a|e|f q IH|q IH|C ev oracle q IH|q IH|t q IH];
    cbn [bind_p forks_only] in *; auto.
  destruct Hp. auto.
Qed.

Lemma forks_only_catch {A} allowed (p : Proc A) (h : Error -> Proc A) :
  forks_only allowed p -> (forall e, forks_only allowed (h e)) ->
  forks_only allowed (catch_p p h).
Proof.
  intros Hp Hh.
  induction p as [a|e|f q IH|q IH|C ev oracle q IH|q IH|t q IH];
    cbn [catch_p forks_only] in *; auto.
  destruct Hp. auto.
Qed.

Lemma forks_only_getProviderOrSigner env needSigner allowed :
  forks_only allowed (call_p (getProviderOrSigner_p env needSigner)).
Proof.
  unfold call_p, getProviderOrSigner_p, current_modal_p, await_p, sync.
  cbn. intros [w|]; cbn; [|exact I].
  intros [provider|e]; cbn; [|exact I].
  intros [chainId|e]; cbn; [|exact I].
  destruct (negb (chainId =? 4)%Z); [|destruct needSigner]; cbn; exact I.
Qed.

(** The two reads call nothing without [await], and [connectWallet] only
    the two reads: no call is lost when a read is launched. *)
Lemma task_p_forks env t :
  forks_only (fun t' => t = Task_connectWallet /\ is_read t') (task_p env t).
Proof.
  destruct t; cbn [task_p].
  - unfold connectWallet_p.
    apply forks_only_catch; [|intros e; exact I].
    apply forks_only_bind; [apply forks_only_getProviderOrSigner|]. intros _.
    cbn. unfold is_read. auto.
  - unfold checkIfAddressInWhitelist_p.
    apply forks_only_catch; [|intros e; exact I].
    apply forks_only_bind; [apply forks_only_getProviderOrSigner|]. intros acc.
    cbn. intros [a|e]; cbn; [|exact I]. intros [b|e]; cbn; exact I.
  - unfold getNumberOfWhitelisted_p.
    apply forks_only_catch; [|intros e; exact I].
    apply forks_only_bind; [apply forks_only_getProviderOrSigner|]. intros acc.
    cbn. intros [n|e]; cbn; exact I.
Qed.

Lemma guarded_advance launch (p : Proc unit) :
  (forall t pg, guarded pg -> guarded (launch t pg)) ->
  never_raises p -> forall pg, guarded pg -> guarded (advance launch p pg).
Proof.
  intros Hl.
  induction p as [a|e|f q IH|q IH|C ev oracle q IH|q IH|t q IH];
    cbn [never_raises advance]; intros Hp pg Hg.
  - exact Hg.
  - contradiction.
  - apply IH; [exact Hp|]. exact Hg.
  - apply IH; [apply Hp | exact Hg].
  - destruct Hg as (Hu & Hq). split; [exact Hu|]. cbn [pending].
    apply Forall_app. split; [exact Hq|]. constructor; [apply Hp | constructor].
  - destruct Hg as (Hu & Hq). split; [exact Hu|]. cbn [pending].
    apply Forall_app. split; [exact Hq|]. constructor; [exact Hp | constructor].
  - apply IH; [exact Hp|]. now apply Hl.
Qed.

Lemma guarded_launch_task env t pg : guarded pg -> guarded (launch_task env t pg).
Proof.
  intros Hg. unfold launch_task.
  apply guarded_advance; [|apply never_raises_task|exact Hg].
  intros t' pg' Hg'. unfold launch_read.
  apply guarded_advance; [auto|apply never_raises_task|exact Hg'].
Qed.

Lemma Forall_remove_nth {A} (P : A -> Prop) (l : list A) :
  forall i, Forall P l -> Forall P (remove_nth i l).
Proof.
  unfold remove_nth.
  induction l as [|a l IH]; intros i H.
  - rewrite firstn_nil, skipn_nil. constructor.
  - inversion H as [|? ? Ha Hl]; subst.
    destruct i as [|i]; cbn [firstn skipn app]; [exact Hl|].
    constructor; [exact Ha | now apply IH].
Qed.

Lemma guarded_resume env i pg : guarded pg -> guarded (resume env i pg).
Proof.
  intros Hg. unfold resume.
  destruct (nth_error (pending pg) i) as [p|] eqn:Hp; [|exact Hg].
  destruct Hg as (Hu & Hq).
  apply guarded_advance.
  - intros t pg'. apply guarded_launch_task.
  - rewrite Forall_forall in Hq. apply Hq. eapply nth_error_In. exact Hp.
  - split; [exact Hu|]. cbn [pending]. now apply Forall_remove_nth.
Qed.

Lemma guarded_drain env sched : forall pg, guarded pg -> guarded (drain env sched pg).
Proof.
  unfold drain. induction sched as [|i rest IH]; intros pg Hg; cbn [fold_left].
  - exact Hg.
  - apply IH. now apply guarded_resume.
Qed.

Lemma guarded_launches env ts :
  forall pg, guarded pg ->
             guarded (fold_left (fun pg' t => launch_task env t pg') ts pg).
Proof.
  induction ts as [|t rest IH]; intros pg Hg; cbn [fold_left]; [exact Hg|].
  apply IH. now apply guarded_launch_task.
Qed.

Lemma guarded_settle env sched m : guarded (settle env sched m).
Proof.
  unfold settle, launch_started.
  apply guarded_drain, guarded_launches. split; [reflexivity | constructor].
Qed.

(** X4: no exception ever leaves the component: the effect, a click on
    whatever button is shown, and every started task return normally in
    every state and whatever the wallet and the chain answer; and when the
    started tasks run interleaved, in whatever order the outside world
    settles their calls, no exception is left unhandled and no process still
    suspended can end in one. *)
Theorem nothing_rejects env :
  (forall s m, fst (step env s m) = Ok tt)
  /\ (forall t m, fst (run_task env t m) = Ok tt)
  /\ (forall sched m,
        unhandled (settle env sched m) = []
        /\ Forall never_raises (pending (settle env sched m))).
Proof.
  split; [apply step_returns|]. split; [apply run_task_returns|].
  intros sched m. apply guarded_settle.
Qed.



(** ** What every run keeps *)

Lemma footprint_refl env m : footprint env m m.
Proof.
  split; [auto|]. split; [auto|].
  exists []. split; [now rewrite app_nil_r|].
  split; [constructor|]. split; [constructor|]. split; auto.
Qed.

Lemma footprint_trans env m1 m2 m3 :
  footprint env m1 m2 -> footprint env m2 m3 -> footprint env m1 m3.
Proof.
  intros (Hr & Hc & evs & Ht & Hh & He & Hl & Hj)
         (Hr' & Hc' & evs' & Ht' & Hh' & He' & Hl' & Hj').
  split; [auto|]. split; [auto|].
  exists (evs ++ evs').
  split; [rewrite Ht', Ht; now rewrite app_assoc|].
  split; [apply Forall_app; now split|].
  split; [intros Hd; apply Forall_app; split; auto|].
  split.
  - intros H. destruct (Hl' H) as [H2|(c & Hin)].
    + destruct (Hl H2) as [H1|(c & Hin)]; [now left|].
      right. exists c. apply in_or_app. now left.
    + right. exists c. apply in_or_app. now right.
  - intros H. destruct (Hj' H) as [H2|(c & a & Hin)].
    + destruct (Hj H2) as [H1|(c & a & Hin)]; [now left|].
      right. exists c, a. apply in_or_app. now left.
    + right. exists c, a. apply in_or_app. now right.
Qed.

Lemma wallet_event_honest env evs :
  Forall (fun ev => wallet_event ev = true) evs -> Forall (honest_event env) evs.
Proof.
  apply Forall_impl. intros [] H; try exact I; discriminate H.
Qed.

Lemma wallet_event_not_error evs :
  Forall (fun ev => wallet_event ev = true) evs ->
  Forall (fun ev => ev <> ConsoleError TypeError) evs.
Proof.
  apply Forall_impl. intros [] H; first [discriminate | discriminate H].
Qed.

Lemma footprint_getProviderOrSigner env needSigner m :
  footprint env m (snd (getProviderOrSigner env needSigner m)).
Proof.
  destruct (getProviderOrSigner_quiet env needSigner m)
    as (Hui & Hr & _ & evs & Ht & He).
  split; [now rewrite Hr|]. split; [now rewrite Hui|].
  exists evs. split; [exact Ht|].
  split; [now apply wallet_event_honest|].
  split; [intros _; now apply wallet_event_not_error|].
  rewrite Hui. split; intros H; now left.
Qed.

(** The footprint of some further events and writes after a machine: the
    reference is kept, and the clauses are checked on the explicit list. *)
Ltac tail evs :=
  split; [intros H; exact H|];
  split; [intros H; first [exact H | reflexivity]|];
  exists evs;
  split; [now trace_norm|];
  split; [repeat constructor; assumption|];
  split; [intros Hd; repeat constructor; congruence|];
  split; intros Hcell; cbn in Hcell;
    first [ discriminate Hcell
          | left; exact Hcell
          | right; do 2 eexists; cbn; eauto 8
          | right; eexists; cbn; eauto 8 ].

(** What is known about the error a failed accessor threw. *)
Lemma accessor_error env needSigner m e m1 :
  getProviderOrSigner env needSigner m = (Throw e, m1) ->
  web3ModalRef m1 <> None -> e <> TypeError.
Proof.
  intros E Hd.
  destruct (getProviderOrSigner_quiet env needSigner m) as (_ & Hr & _).
  rewrite E in Hr. cbn [snd] in Hr. rewrite Hr in Hd.
  exact (getProviderOrSigner_defined env needSigner m e m1 Hd E).
Qed.

Lemma footprint_error env e m :
  (web3ModalRef m <> None -> e <> TypeError) ->
  footprint env m (log (ConsoleError e) m).
Proof.
  intros He.
  split; [auto|]. split; [auto|].
  exists [ConsoleError e]. split; [reflexivity|].
  split; [now repeat constructor|].
  split; [intros Hd; specialize (He Hd); repeat constructor; congruence|].
  split; intros H; now left.
Qed.

Lemma footprint_getNumberOfWhitelisted env m :
  footprint env m (snd (getNumberOfWhitelisted env m)).
Proof.
  pose proof (footprint_getProviderOrSigner env false m) as G.
  destruct (getNumberOfWhitelisted_case env m)
    as [e m1 E | acc m1 e E Hn | acc m1 n E Hn];
    rewrite E in G; cbn [snd] in G |- *;
    (eapply footprint_trans; [exact G|]).
  - apply footprint_error. now apply (accessor_error env false m).
  - destruct (getProviderOrSigner_Ok env false m acc m1 E) as (_ & Hsig & _).
    tail [CallNumAddressesWhitelisted (whitelist_contract env acc);
          ConsoleError (External e)].
  - destruct (getProviderOrSigner_Ok env false m acc m1 E) as (_ & Hsig & _).
    tail [CallNumAddressesWhitelisted (whitelist_contract env acc);
          SetNumberOfWhitelisted n].
Qed.

Lemma footprint_checkIfAddressInWhitelist env m :
  footprint env m (snd (checkIfAddressInWhitelist env m)).
Proof.
  pose proof (footprint_getProviderOrSigner env true m) as G.
  destruct (checkIfAddressInWhitelist_case env m)
    as [e m1 E | acc m1 e E Ha | acc m1 a e E Ha Hb | acc m1 a b E Ha Hb];
    rewrite E in G; cbn [snd] in G |- *;
    (eapply footprint_trans; [exact G|]).
  - apply footprint_error. now apply (accessor_error env true m).
  - destruct (getProviderOrSigner_Ok env true m acc m1 E) as (_ & Hsig & _).
    tail [GetAddress acc; ConsoleError (External e)].
  - destruct (getProviderOrSigner_Ok env true m acc m1 E) as (_ & Hsig & _).
    tail [GetAddress acc;
          CallWhitelistedAddress (whitelist_contract env acc) a;
          ConsoleError (External e)].
  - destruct (getProviderOrSigner_Ok env true m acc m1 E) as (_ & Hsig & _).
    tail [GetAddress acc;
          CallWhitelistedAddress (whitelist_contract env acc) a;
          SetJoinedWhitelist b].
Qed.

Lemma footprint_addAddressToWhitelist env m :
  footprint env m (snd (addAddressToWhitelist env m)).
Proof.
  pose proof (footprint_getProviderOrSigner env true m) as G.
  destruct (addAddressToWhitelist_case env m)
    as [e m1 E | acc m1 e E Hs | acc m1 tx e E Hs Hw | acc m1 tx E Hs Hw];
    rewrite E in G; cbn [snd] in G |- *;
    (eapply footprint_trans; [exact G|]).
  - apply footprint_error. now apply (accessor_error env true m).
  - destruct (getProviderOrSigner_Ok env true m acc m1 E) as (_ & Hsig & _).
    tail [CallAddAddressToWhitelist (whitelist_contract env acc);
          ConsoleError (External e)].
  - destruct (getProviderOrSigner_Ok env true m acc m1 E) as (_ & Hsig & _).
    tail [CallAddAddressToWhitelist (whitelist_contract env acc);
          SetLoading true; TxWait tx; ConsoleError (External e)].
  - destruct (getProviderOrSigner_Ok env true m acc m1 E) as (_ & Hsig & _).
    eapply footprint_trans; [|apply footprint_getNumberOfWhitelisted].
    tail [CallAddAddressToWhitelist (whitelist_contract env acc);
          SetLoading true; TxWait tx; SetLoading false].
Qed.

Lemma footprint_connectWallet env m :
  footprint env m (snd (connectWallet env m)).
Proof.
  pose proof (footprint_getProviderOrSigner env false m) as G.
  destruct (connectWallet_case env m) as [e m1 E | acc m1 E];
    rewrite E in G; cbn [snd] in G |- *;
    (eapply footprint_trans; [exact G|]).
  - apply footprint_error. now apply (accessor_error env false m).
  - tail [SetWalletConnected true].
Qed.

Lemma footprint_dequeue env m : footprint env m (dequeue m).
Proof.
  split; [auto|]. split; [auto|].
  exists []. split; [cbn [dequeue trace]; now rewrite app_nil_r|].
  split; [constructor|]. split; [constructor|]. split; auto.
Qed.

Lemma footprint_step env s m : footprint env m (snd (step env s m)).
Proof.
  destruct s as [[]|]; cbn [step react].
  - unfold useEffect_walletConnected.
    destruct (negb (walletConnected (ui m))); [|apply footprint_refl].
    split; [discriminate|]. split; [intros H; exact H|].
    exists [NewWeb3Modal the_modal]. split; [reflexivity|].
    split; [now repeat constructor|].
    split; [intros _; repeat constructor; discriminate|].
    split; intros H; now left.
  - unfold click. destruct (handler_of (renderButton (ui m))) as [[]|].
    + apply footprint_addAddressToWhitelist.
    + apply footprint_connectWallet.
    + apply footprint_refl.
  - unfold run_next. destruct (started m) as [|t rest] eqn:Hq;
      [apply footprint_refl|].
    eapply footprint_trans; [apply footprint_dequeue|].
    destruct t; cbn [run_task].
    + apply footprint_connectWallet.
    + apply footprint_checkIfAddressInWhitelist.
    + apply footprint_getNumberOfWhitelisted.
Qed.

Lemma footprint_run env ss : forall m, footprint env m (run env ss m).
Proof.
  induction ss as [|s rest IH]; intros m; cbn [run].
  - apply footprint_refl.
  - eapply footprint_trans; [apply footprint_step | apply IH].
Qed.

(** X7: once the connector reference is defined it stays defined through
    every run of triggers and tasks, and from then on no handler ever fails
    with the TypeError of reading [connect] of [undefined]. *)
Theorem connector_stays_defined env m ss :
  web3ModalRef m <> None ->
  web3ModalRef (run env ss m) <> None
  /\ exists evs,
       trace (run env ss m) = trace m ++ evs
       /\ Forall (fun ev => ev <> ConsoleError TypeError) evs.
Proof.
  intros Hd.
  destruct (footprint_run env ss m) as (Hr & _ & evs & Ht & _ & He & _).
  split; [auto|]. exists evs. auto.
Qed.

Lemma connector_stays_defined_witness :
  web3ModalRef
    (run env_mainnet [Fire ButtonClicked; RunTask; Fire EffectRuns] mounted)
  <> None.
Proof.
  apply (connector_stays_defined env_mainnet mounted
           [Fire ButtonClicked; RunTask; Fire EffectRuns]).
  discriminate.
Defined.

(** X10: the component has no way back from connected: whatever triggers
    fire and tasks run, and whatever they meet, [walletConnected] stays true
    and the connect button is never shown again. *)
Theorem connected_stays_connected env m ss :
  walletConnected (ui m) = true ->
  walletConnected (ui (run env ss m)) = true
  /\ renderButton (ui (run env ss m)) <> variant_element ConnectAffordance.
Proof.
  intros Hc.
  destruct (footprint_run env ss m) as (_ & Hw & _).
  specialize (Hw Hc). split; [exact Hw|].
  unfold renderButton. rewrite Hw.
  destruct (joinedWhitelist (ui (run env ss m))), (loading (ui (run env ss m)));
    discriminate.
Qed.

Lemma connected_stays_connected_witness :
  walletConnected
    (ui (run env_connect_declined [Fire ButtonClicked; RunTask; Fire EffectRuns]
           connected))
  = true.
Proof.
  apply (connected_stays_connected env_connect_declined connected
           [Fire ButtonClicked; RunTask; Fire EffectRuns]).
  reflexivity.
Defined.

(** X11: the cells are only written from what the chain answered: over any
    run, [loading] can only have become true if the join call was made on
    the contract during the run, and [joinedWhitelist] can only have become
    true if the contract was asked about an address during the run. *)
Theorem cells_backed_by_calls env m ss :
  exists evs,
    trace (run env ss m) = trace m ++ evs
    /\ (loading (ui (run env ss m)) = true ->
        loading (ui m) = true
        \/ exists c, In (CallAddAddressToWhitelist c) evs)
    /\ (joinedWhitelist (ui (run env ss m)) = true ->
        joinedWhitelist (ui m) = true
        \/ exists c a, In (CallWhitelistedAddress c a) evs).
Proof.
  destruct (footprint_run env ss m) as (_ & _ & evs & Ht & _ & _ & Hl & Hj).
  exists evs. auto.
Qed.

(** X12: over any run, every contract call is made on a contract whose
    address is [WHITELIST_CONTRACT_ADDRESS] and whose interface is [abi];
    the join and the membership question go through a signer and the count
    through the plain provider; the address is read from a signer;
    [setWalletConnected] is only called with true; and the connector is only
    created for Rinkeby with the injected provider enabled. *)
Theorem run_events_honest env m ss :
  exists evs,
    trace (run env ss m) = trace m ++ evs
    /\ Forall (honest_event env) evs.
Proof.
  destruct (footprint_run env ss m) as (_ & _ & evs & Ht & Hh & _).
  exists evs. auto.
Qed.

(** ** Transactions and clicks *)

Lemma submissions_app evs1 evs2 :
  submissions (evs1 ++ evs2) = submissions evs1 + submissions evs2.
Proof. unfold submissions. now rewrite filter_app, length_app. Qed.

Lemma submissions_wallet evs :
  Forall (fun ev => wallet_event ev = true) evs -> submissions evs = 0.
Proof.
  unfold submissions. induction 1 as [|ev evs Hev _ IH]; [reflexivity|].
  destruct ev; try discriminate Hev; exact IH.
Qed.

Lemma submissions_getProviderOrSigner env needSigner m o m1 :
  getProviderOrSigner env needSigner m = (o, m1) ->
  submissions (trace m1) = submissions (trace m).
Proof.
  intros E.
  destruct (getProviderOrSigner_quiet env needSigner m) as (_ & _ & _ & evs & Ht & He).
  rewrite E in Ht. cbn [snd] in Ht.
  rewrite Ht, submissions_app, (submissions_wallet evs He). lia.
Qed.

(** The submissions in the trace of a machine built on another one. *)
Ltac count_submissions :=
  trace_norm; rewrite ?submissions_app; cbn [submissions filter is_submission List.length].

Lemma submissions_getNumberOfWhitelisted env m :
  submissions (trace (snd (getNumberOfWhitelisted env m))) = submissions (trace m).
Proof.
  destruct (getNumberOfWhitelisted_case env m)
    as [e m1 E | acc m1 e E Hn | acc m1 n E Hn];
    rewrite <- (submissions_getProviderOrSigner env false m _ m1 E);
    count_submissions; lia.
Qed.

Lemma submissions_checkIfAddressInWhitelist env m :
  submissions (trace (snd (checkIfAddressInWhitelist env m))) = submissions (trace m).
Proof.
  destruct (checkIfAddressInWhitelist_case env m)
    as [e m1 E | acc m1 e E Ha | acc m1 a e E Ha Hb | acc m1 a b E Ha Hb];
    rewrite <- (submissions_getProviderOrSigner env true m _ m1 E);
    count_submissions; lia.
Qed.

Lemma submissions_connectWallet env m :
  submissions (trace (snd (connectWallet env m))) = submissions (trace m).
Proof.
  destruct (connectWallet_case env m) as [e m1 E | acc m1 E];
    rewrite <- (submissions_getProviderOrSigner env false m _ m1 E);
    count_submissions; lia.
Qed.

Lemma submissions_addAddressToWhitelist env m :
  submissions (trace (snd (addAddressToWhitelist env m))) <= S (submissions (trace m)).
Proof.
  destruct (addAddressToWhitelist_case env m)
    as [e m1 E | acc m1 e E Hs | acc m1 tx e E Hs Hw | acc m1 tx E Hs Hw];
    rewrite <- (submissions_getProviderOrSigner env true m _ m1 E);
    try rewrite submissions_getNumberOfWhitelisted;
    count_submissions; lia.
Qed.

Lemma submissions_step env s m :
  submissions (trace (snd (step env s m))) <= submissions (trace m)
  \/ (submissions (trace (snd (step env s m))) = S (submissions (trace m))
      /\ s = Fire ButtonClicked
      /\ renderButton (ui m) = variant_element JoinAffordance).
Proof.
  destruct s as [[]|]; cbn [step react].
  - left. unfold useEffect_walletConnected.
    destruct (negb (walletConnected (ui m)));
      [cbn [bind emit start snd]; count_submissions; lia | apply le_n].
  - unfold click.
    assert (Hv : renderButton (ui m) = variant_element (render_spec (ui m))).
    { unfold renderButton, render_spec.
      destruct (walletConnected (ui m)), (joinedWhitelist (ui m)), (loading (ui m));
        reflexivity. }
    rewrite Hv.
    destruct (render_spec (ui m)); cbn [variant_element handler_of run_handler].
    + left. rewrite submissions_connectWallet. apply le_n.
    + left. apply le_n.
    + left. apply le_n.
    + pose proof (submissions_addAddressToWhitelist env m) as H.
      destruct (Nat.eq_dec (submissions (trace (snd (addAddressToWhitelist env m))))
                           (S (submissions (trace m)))) as [Heq|Hne].
      * right. auto.
      * left. lia.
  - left. unfold run_next. destruct (started m) as [|t rest]; [apply le_n|].
    destruct t; cbn [run_task].
    + now rewrite submissions_connectWallet.
    + now rewrite submissions_checkIfAddressInWhitelist.
    + now rewrite submissions_getNumberOfWhitelisted.
Qed.

(** X14: join transactions are only ever sent by a click on the join
    button, at most one per click: a step makes the join call at most once,
    and makes it only if it is a click while the join button is shown; so a
    run makes at most as many join calls as it has clicks. *)
Theorem submissions_bounded_by_clicks env :
  (forall s m,
      submissions (trace (snd (step env s m))) <= S (submissions (trace m))
      /\ (submissions (trace (snd (step env s m))) <> submissions (trace m) ->
          s = Fire ButtonClicked
          /\ renderButton (ui m) = variant_element JoinAffordance))
  /\ (forall ss m,
        submissions (trace (run env ss m)) <= submissions (trace m) + clicks ss).
Proof.
  assert (Hstep : forall s m,
             submissions (trace (snd (step env s m)))
             <= submissions (trace m) + (if is_click s then 1 else 0)).
  { intros s m.
    destruct (submissions_step env s m) as [H|(H & -> & _)]; [lia|].
    cbn [is_click]. lia. }
  split.
  - intros s m. split.
    + destruct (submissions_step env s m) as [H|(H & _)]; lia.
    + intros Hne. destruct (submissions_step env s m) as [H|(H & Hs & Hb)]; [|auto].
      exfalso. apply Hne.
      destruct (footprint_step env s m) as (_ & _ & evs & Ht & _).
      rewrite Ht, submissions_app in *. lia.
  - induction ss as [|s rest IH]; intros m; cbn [run].
    + unfold clicks. cbn. lia.
    + specialize (IH (snd (step env s m))). specialize (Hstep s m).
      unfold clicks in *. cbn [filter].
      destruct (is_click s); cbn [List.length]; lia.
Qed.



(** ** The first visit *)

(** A process on its way to its last statements either reaches them in this
    turn or suspends, having written nothing, still on its way. *)
Lemma advance_leads_to launch final p :
  leads_to final p ->
  forall pg,
    web3ModalRef (machine pg) = Some the_modal ->
    advance launch p pg = advance launch final pg
    \/ exists p' m',
         leads_to final p'
         /\ ui m' = ui (machine pg)
         /\ web3ModalRef m' = Some the_modal
         /\ advance launch p pg
            = {| machine := m'; pending := pending pg ++ [p'];
                 unhandled := unhandled pg |}.
Proof.
  induction 1 as [|k Hk IH|B ev oracle k Hk IH|k Hk IH]; intros pg Hr.
  - now left.
  - cbn [advance]. rewrite Hr. now apply IH.
  - right. exists (k (oracle (clock (machine pg)))), (tick (log ev (machine pg))).
    split; [apply Hk|]. repeat split. exact Hr.
  - right. exists k, (machine pg). repeat split; [exact Hk | exact Hr].
Qed.

Section FirstVisit.

Variable env : Env.
Variables (p : RawProvider) (addr : Address) (member : bool) (n : Z).
Hypothesis answers : steady_answers env p addr member n.

Ltac next_call H :=
  apply leads_await; intros ?; rewrite H; cbn [bind_p catch_p].

Lemma connectWallet_p_leads : leads_to connect_end (connectWallet_p env).
Proof.
  destruct answers as [Hc Hn Ha Hm Hk].
  unfold connectWallet_p, call_p, getProviderOrSigner_p, current_modal_p,
    await_p, start_p.
  cbn [bind_p catch_p]. apply leads_current. cbn [bind_p catch_p].
  next_call Hc. next_call Hn. cbn [Z.eqb Pos.eqb negb bind_p catch_p].
  apply leads_yield. apply leads_here.
Qed.

Lemma checkIfAddressInWhitelist_p_leads :
  leads_to (membership_end member) (checkIfAddressInWhitelist_p env).
Proof.
  destruct answers as [Hc Hn Ha Hm Hk].
  unfold checkIfAddressInWhitelist_p, call_p, getProviderOrSigner_p,
    current_modal_p, await_p.
  cbn [bind_p catch_p]. apply leads_current. cbn [bind_p catch_p].
  next_call Hc. next_call Hn. cbn [Z.eqb Pos.eqb negb bind_p catch_p].
  apply leads_yield. cbv zeta. next_call Ha. next_call Hm.
  apply leads_here.
Qed.

Lemma getNumberOfWhitelisted_p_leads :
  leads_to (count_end n) (getNumberOfWhitelisted_p env).
Proof.
  destruct answers as [Hc Hn Ha Hm Hk].
  unfold getNumberOfWhitelisted_p, call_p, getProviderOrSigner_p,
    current_modal_p, await_p.
  cbn [bind_p catch_p]. apply leads_current. cbn [bind_p catch_p].
  next_call Hc. next_call Hn. cbn [Z.eqb Pos.eqb negb bind_p catch_p].
  apply leads_yield. cbv zeta. next_call Hk.
  apply leads_here.
Qed.

(** A read that is launched either stores its result at once or is left
    suspended on its way to doing so. *)
Lemma launch_membership l' pg :
  web3ModalRef (machine pg) = Some the_modal ->
  advance l' (checkIfAddressInWhitelist_p env) pg
  = {| machine := snd (setJoinedWhitelist member (machine pg));
       pending := pending pg; unhandled := unhandled pg |}
  \/ exists c m',
       leads_to (membership_end member) c
       /\ ui m' = ui (machine pg)
       /\ web3ModalRef m' = Some the_modal
       /\ advance l' (checkIfAddressInWhitelist_p env) pg
          = {| machine := m'; pending := pending pg ++ [c];
               unhandled := unhandled pg |}.
Proof.
  intros Hr.
  destruct (advance_leads_to l' _ _ checkIfAddressInWhitelist_p_leads pg Hr)
    as [H|H]; [left; exact H | right; exact H].
Qed.

Lemma launch_count l' pg :
  web3ModalRef (machine pg) = Some the_modal ->
  advance l' (getNumberOfWhitelisted_p env) pg
  = {| machine := snd (setNumberOfWhitelisted n (machine pg));
       pending := pending pg; unhandled := unhandled pg |}
  \/ exists k m',
       leads_to (count_end n) k
       /\ ui m' = ui (machine pg)
       /\ web3ModalRef m' = Some the_modal
       /\ advance l' (getNumberOfWhitelisted_p env) pg
          = {| machine := m'; pending := pending pg ++ [k];
               unhandled := unhandled pg |}.
Proof.
  intros Hr.
  destruct (advance_leads_to l' _ _ getNumberOfWhitelisted_p_leads pg Hr)
    as [H|H]; [left; exact H | right; exact H].
Qed.

(** The last statements of [connectWallet], with nothing else in flight. *)
Lemma connect_end_visiting l' u0 pg :
  web3ModalRef (machine pg) = Some the_modal ->
  unhandled pg = [] ->
  pending pg = [] ->
  ui (machine pg) = ui_at u0 member n false false false ->
  visiting u0 member n
    (advance (fun t pg' => advance l' (task_p env t) pg') connect_end pg).
Proof.
  intros Hr Hu Hq Hui.
  destruct pg as [m ps us]. cbn [machine pending unhandled] in *. subst ps us.
  unfold connect_end. cbn [advance task_p machine pending unhandled].
  assert (Hui1 : ui (snd (setWalletConnected true m))
                 = ui_at u0 member n true false false)
    by (cbn; rewrite Hui; reflexivity).
  match goal with
  | |- context [advance l' (checkIfAddressInWhitelist_p env) ?pg1] =>
      destruct (launch_membership l' pg1 Hr)
        as [E|(c & m' & Hc & Huc & Hrc & E)]; rewrite E; clear E
  end; cbn [machine pending unhandled app] in *.
  - match goal with
    | |- context [advance l' (getNumberOfWhitelisted_p env) ?pg2] =>
        destruct (launch_count l' pg2 Hr)
          as [E|(k & m'' & Hk & Huk & Hrk & E)]; rewrite E; clear E
    end; cbn [machine pending unhandled app] in *.
    + split; [exact Hr|]. split; [reflexivity|]. cbn. rewrite Hui.
      apply visit_done.
    + split; [exact Hrk|]. split; [reflexivity|]. cbn [pending machine].
      rewrite Huk. cbn. rewrite Hui. now apply visit_count_left.
  - match goal with
    | |- context [advance l' (getNumberOfWhitelisted_p env) ?pg2] =>
        destruct (launch_count l' pg2 Hrc)
          as [E|(k & m'' & Hk & Huk & Hrk & E)]; rewrite E; clear E
    end; cbn [machine pending unhandled app] in *.
    + split; [exact Hrc|]. split; [reflexivity|]. cbn. rewrite Huc, Hui1.
      now apply visit_member_left.
    + split; [exact Hrk|]. split; [reflexivity|]. cbn [pending machine].
      rewrite Huk, Huc, Hui1. now apply visit_member_count.
Qed.

(** Resuming any suspended process keeps the visit on its course. *)
Lemma visiting_resume u0 i pg :
  visiting u0 member n pg -> visiting u0 member n (resume env i pg).
Proof.
  intros (Hr & Hu & Hv). unfold resume.
  destruct (nth_error (pending pg) i) as [q|] eqn:Hq;
    [|now repeat split].
  destruct pg as [m ps us]. cbn [machine pending unhandled] in *. subst us.
  inversion Hv as [w Hw Hps Hui | c k Hc Hk Hps Hui | k c Hk Hc Hps Hui
                   | c Hc Hps Hui | k Hk Hps Hui | Hps Hui];
    subst ps; symmetry in Hui;
    (destruct i as [|[|i]]; cbn in Hq; try discriminate Hq;
     try (destruct i; discriminate Hq); injection Hq as <-);
    unfold remove_nth; cbn [firstn skipn app].
  - (* connecting *)
    destruct (advance_leads_to (launch_task env) _ _ Hw
                {| machine := m; pending := []; unhandled := [] |} Hr)
      as [E|(w' & m' & Hw' & Huw & Hrw & E)]; rewrite E; clear E;
      cbn [machine pending unhandled] in *.
    + apply (connect_end_visiting (launch_read env)); auto.
    + split; [exact Hrw|]. split; [reflexivity|]. cbn [pending machine app].
      rewrite Huw, Hui. now apply visit_connecting.
  - (* both in flight, the membership check resumed *)
    destruct (advance_leads_to (launch_task env) _ _ Hc
                {| machine := m; pending := [k]; unhandled := [] |} Hr)
      as [E|(c' & m' & Hc' & Huc & Hrc & E)]; rewrite E; clear E;
      cbn [machine pending unhandled] in *.
    + split; [exact Hr|]. split; [reflexivity|]. cbn. rewrite Hui.
      now apply visit_count_left.
    + split; [exact Hrc|]. split; [reflexivity|]. cbn [pending machine app].
      rewrite Huc, Hui. now apply visit_count_member.
  - (* both in flight, the count read resumed *)
    destruct (advance_leads_to (launch_task env) _ _ Hk
                {| machine := m; pending := [c]; unhandled := [] |} Hr)
      as [E|(k' & m' & Hk' & Huk & Hrk & E)]; rewrite E; clear E;
      cbn [machine pending unhandled] in *.
    + split; [exact Hr|]. split; [reflexivity|]. cbn. rewrite Hui.
      now apply visit_member_left.
    + split; [exact Hrk|]. split; [reflexivity|]. cbn [pending machine app].
      rewrite Huk, Hui. now apply visit_member_count.
  - destruct (advance_leads_to (launch_task env) _ _ Hk
                {| machine := m; pending := [c]; unhandled := [] |} Hr)
      as [E|(k' & m' & Hk' & Huk & Hrk & E)]; rewrite E; clear E;
      cbn [machine pending unhandled] in *.
    + split; [exact Hr|]. split; [reflexivity|]. cbn. rewrite Hui.
      now apply visit_member_left.
    + split; [exact Hrk|]. split; [reflexivity|]. cbn [pending machine app].
      rewrite Huk, Hui. now apply visit_member_count.
  - destruct (advance_leads_to (launch_task env) _ _ Hc
                {| machine := m; pending := [k]; unhandled := [] |} Hr)
      as [E|(c' & m' & Hc' & Huc & Hrc & E)]; rewrite E; clear E;
      cbn [machine pending unhandled] in *.
    + split; [exact Hr|]. split; [reflexivity|]. cbn. rewrite Hui.
      now apply visit_count_left.
    + split; [exact Hrc|]. split; [reflexivity|]. cbn [pending machine app].
      rewrite Huc, Hui. now apply visit_count_member.
  - destruct (advance_leads_to (launch_task env) _ _ Hc
                {| machine := m; pending := []; unhandled := [] |} Hr)
      as [E|(c' & m' & Hc' & Huc & Hrc & E)]; rewrite E; clear E;
      cbn [machine pending unhandled] in *.
    + split; [exact Hr|]. split; [reflexivity|]. cbn. rewrite Hui.
      apply visit_done.
    + split; [exact Hrc|]. split; [reflexivity|]. cbn [pending machine app].
      rewrite Huc, Hui. now apply visit_member_left.
  - destruct (advance_leads_to (launch_task env) _ _ Hk
                {| machine := m; pending := []; unhandled := [] |} Hr)
      as [E|(k' & m' & Hk' & Huk & Hrk & E)]; rewrite E; clear E;
      cbn [machine pending unhandled] in *.
    + split; [exact Hr|]. split; [reflexivity|]. cbn. rewrite Hui.
      apply visit_done.
    + split; [exact Hrk|]. split; [reflexivity|]. cbn [pending machine app].
      rewrite Huk, Hui. now apply visit_count_left.
Qed.

Lemma visiting_drain u0 sched :
  forall pg, visiting u0 member n pg -> visiting u0 member n (drain env sched pg).
Proof.
  unfold drain. induction sched as [|i rest IH]; intros pg Hv; cbn [fold_left].
  - exact Hv.
  - apply IH. now apply visiting_resume.
Qed.

End FirstVisit.

Lemma visit_state_loading u0 member n ps u :
  visit_state u0 member n ps u -> loading u = loading u0.
Proof. intros []; reflexivity. Qed.

Lemma visit_state_done u0 member n ps u :
  visit_state u0 member n ps u -> ps = [] ->
  u = ui_at u0 member n true true true.
Proof. intros [] E; try discriminate E; reflexivity. Qed.

(** X8: on a disconnected page with nothing in flight, if the wallet
    connects on chain 4 and the contract answers whenever asked, then after
    the effect, however the calls of [connectWallet] and of the two reads it
    starts are interleaved, nothing is left unhandled, the connector is in
    place and [loading] is untouched; and once nothing is in flight any more
    the wallet is connected, [joinedWhitelist] is what the contract said
    about the user's address and the count is what the contract returned. *)
Theorem first_visit_settles env p addr member n m sched :
  steady_answers env p addr member n ->
  walletConnected (ui m) = false ->
  started m = [] ->
  let pg := settle env sched (snd (useEffect_walletConnected m)) in
  unhandled pg = []
  /\ web3ModalRef (machine pg) = Some the_modal
  /\ loading (ui (machine pg)) = loading (ui m)
  /\ (pending pg = [] ->
      ui (machine pg)
      = {| walletConnected := true; joinedWhitelist := member;
           loading := loading (ui m); numberOfWhitelisted := n |}
      /\ renderButton (ui (machine pg))
         = variant_element (if member then MembershipConfirmation
                            else if loading (ui m) then LoadingAffordance
                            else JoinAffordance)).
Proof.
  intros Hs Hw Hst.
  destruct m as [[wc jw ld cnt] ref clk tr st]. cbn in Hw, Hst. subst wc st.
  cbv zeta.
  set (u0 := {| walletConnected := false; joinedWhitelist := jw;
                loading := ld; numberOfWhitelisted := cnt |}).
  set (m0 := {| ui := u0; web3ModalRef := ref; clock := clk; trace := tr;
                started := [] |}).
  assert (V : visiting u0 member n
                (launch_started env (snd (useEffect_walletConnected m0)))).
  { unfold launch_started, useEffect_walletConnected.
    cbn [ui walletConnected negb bind emit start snd m0 u0 assign_ref log enqueue
         started web3ModalRef clock trace app fold_left].
    unfold launch_task. cbn [task_p].
    match goal with
    | |- visiting _ _ _ (advance _ _ ?pg0) =>
        destruct (advance_leads_to (launch_read env) _ _
                    (connectWallet_p_leads env p addr member n Hs) pg0 eq_refl)
          as [E|(w & m' & Hlw & Huw & Hrw & E)]; rewrite E; clear E
    end.
    - apply (connect_end_visiting env p addr member n Hs (fun _ pg' => pg'));
        reflexivity.
    - split; [exact Hrw|]. split; [reflexivity|]. cbn [pending machine page_of app].
      rewrite Huw. now apply visit_connecting. }
  destruct (visiting_drain env p addr member n Hs u0 sched _ V) as (Hr & Hu & Hv).
  split; [exact Hu|]. split; [exact Hr|].
  split; [exact (visit_state_loading _ _ _ _ _ Hv)|].
  intros Hp. unfold settle in Hp |- *.
  rewrite (visit_state_done _ _ _ _ _ Hv Hp).
  split; [reflexivity|]. cbn. destruct member, ld; reflexivity.
Qed.

(** The calls settling in the order they were made: twelve resumptions
    complete the visit; the two reads connect and ask for the network side
    by side, and the count is stored before the membership. *)
Lemma first_visit_settles_witness :
  pending (settle env_member (repeat 0 12) (snd (useEffect_walletConnected fresh)))
  = []
  /\ ui (machine (settle env_member (repeat 0 12)
                    (snd (useEffect_walletConnected fresh))))
     = {| walletConnected := true; joinedWhitelist := true;
          loading := false; numberOfWhitelisted := 5 |}
  /\ trace (machine (settle env_member (repeat 0 12)
                       (snd (useEffect_walletConnected fresh))))
     = [NewWeb3Modal the_modal;
        Web3ModalConnect; GetNetwork; SetWalletConnected true;
        Web3ModalConnect; Web3ModalConnect; GetNetwork; GetNetwork;
        GetAddress (SignerAcc (mkWeb3Provider 0));
        CallNumAddressesWhitelisted
          (whitelist_contract env_member (ProviderAcc (mkWeb3Provider 0)));
        CallWhitelistedAddress
          (whitelist_contract env_member (SignerAcc (mkWeb3Provider 0))) "0xUser";
        SetNumberOfWhitelisted 5;
        SetJoinedWhitelist true].
Proof.
  split; [vm_compute; reflexivity|]. split; [|vm_compute; reflexivity].
  refine (proj1 (proj2 (proj2 (proj2
    (first_visit_settles env_member 0 "0xUser" true 5%Z fresh (repeat 0 12)
       _ _ _))) _));
    [constructor; reflexivity | reflexivity | reflexivity
     | vm_compute; reflexivity].
Defined.

(** ** The handlers and the state they were created with *)

Lemma blind_ret {A} (a : A) : blind (ret a).
Proof. intros m1 m2 T. now split. Qed.

Lemma blind_throw {A} e : blind (@throw A e).
Proof. intros m1 m2 T. now split. Qed.

Lemma blind_bind {A B} (c : Async A) (k : A -> Async B) :
  blind c -> (forall a, blind (k a)) -> blind (bind c k).
Proof.
  intros Hc Hk m1 m2 T. unfold bind. specialize (Hc m1 m2 T).
  destruct (c m1) as [[a1|e1] n1], (c m2) as [[a2|e2] n2];
    destruct Hc as (Ho & Hn); cbn [fst snd] in Ho, Hn; try discriminate Ho.
  - injection Ho as <-. exact (Hk a1 n1 n2 Hn).
  - injection Ho as <-. split; [reflexivity | exact Hn].
Qed.

Lemma blind_try_catch {A} (c : Async A) (h : Error -> Async A) :
  blind c -> (forall e, blind (h e)) -> blind (try_catch c h).
Proof.
  intros Hc Hh m1 m2 T. unfold try_catch. specialize (Hc m1 m2 T).
  destruct (c m1) as [[a1|e1] n1], (c m2) as [[a2|e2] n2];
    destruct Hc as (Ho & Hn); cbn [fst snd] in Ho, Hn; try discriminate Ho.
  - split; [exact Ho | exact Hn].
  - injection Ho as <-. exact (Hh e1 n1 n2 Hn).
Qed.

Lemma blind_await {A} ev (oracle : nat -> Settled A) : blind (await ev oracle).
Proof.
  intros m1 m2 (Ht & Hk & Hs & Hr). unfold await. rewrite Hk.
  destruct (oracle (clock m2)); (split; [reflexivity|]);
    cbn [snd]; repeat split; cbn; congruence.
Qed.

Lemma blind_emit ev : blind (emit ev).
Proof.
  intros m1 m2 (Ht & Hk & Hs & Hr).
  split; [reflexivity|]. repeat split; cbn; congruence.
Qed.

Lemma blind_start t : blind (start t).
Proof.
  intros m1 m2 (Ht & Hk & Hs & Hr).
  split; [reflexivity|]. repeat split; cbn; congruence.
Qed.

Lemma blind_current_modal : blind current_modal.
Proof.
  intros m1 m2 (Ht & Hk & Hs & Hr). unfold current_modal. rewrite Hr.
  destruct (web3ModalRef m2) eqn:E; repeat split; cbn; congruence.
Qed.

Lemma blind_setWalletConnected b : blind (setWalletConnected b).
Proof.
  intros m1 m2 (Ht & Hk & Hs & Hr).
  split; [reflexivity|]. repeat split; cbn; congruence.
Qed.

Lemma blind_setJoinedWhitelist b : blind (setJoinedWhitelist b).
Proof.
  intros m1 m2 (Ht & Hk & Hs & Hr).
  split; [reflexivity|]. repeat split; cbn; congruence.
Qed.

Lemma blind_setLoading b : blind (setLoading b).
Proof.
  intros m1 m2 (Ht & Hk & Hs & Hr).
  split; [reflexivity|]. repeat split; cbn; congruence.
Qed.

Lemma blind_setNumberOfWhitelisted n : blind (setNumberOfWhitelisted n).
Proof.
  intros m1 m2 (Ht & Hk & Hs & Hr).
  split; [reflexivity|]. repeat split; cbn; congruence.
Qed.

Create HintDb blind.
#[local] Hint Resolve blind_await blind_emit blind_start blind_current_modal
  blind_setWalletConnected blind_setJoinedWhitelist blind_setLoading
  blind_setNumberOfWhitelisted : blind.

Ltac blind_steps :=
  repeat lazymatch goal with
  | |- blind (bind _ _) => apply blind_bind; [|intros ?]
  | |- blind (try_catch _ _) => apply blind_try_catch; [|intros ?]
  | |- blind (ret _) => apply blind_ret
  | |- blind (throw _) => apply blind_throw
  | |- blind (if ?b then _ else _) => destruct b
  | |- blind (let _ := _ in _) => cbv zeta
  | |- _ => solve [unfold console_error; auto with blind]
  end.

Lemma blind_getProviderOrSigner env needSigner :
  blind (getProviderOrSigner env needSigner).
Proof. unfold getProviderOrSigner. blind_steps. Qed.

Lemma blind_getNumberOfWhitelisted env : blind (getNumberOfWhitelisted env).
Proof.
  pose proof (blind_getProviderOrSigner env false) as G.
  unfold getNumberOfWhitelisted, getNumberOfWhitelisted_try. blind_steps.
Qed.

Lemma blind_checkIfAddressInWhitelist env : blind (checkIfAddressInWhitelist env).
Proof.
  pose proof (blind_getProviderOrSigner env true) as G.
  unfold checkIfAddressInWhitelist, checkIfAddressInWhitelist_try. blind_steps.
Qed.

Lemma blind_addAddressToWhitelist env : blind (addAddressToWhitelist env).
Proof.
  pose proof (blind_getProviderOrSigner env true) as G.
  pose proof (blind_getNumberOfWhitelisted env) as N.
  unfold addAddressToWhitelist, addAddressToWhitelist_try. blind_steps.
Qed.

Lemma blind_connectWallet env : blind (connectWallet env).
Proof.
  pose proof (blind_getProviderOrSigner env false) as G.
  unfold connectWallet, connectWallet_try. blind_steps.
Qed.

(** X15: the asynchronous handlers never read the state cells: started from
    two machines that differ only in the values of the cells, each of them
    makes the same calls in the same order, logs the same events, starts the
    same tasks and ends with the same outcome.  So a handler created by an
    earlier render behaves as one created by the latest. *)
Theorem handlers_ignore_state env u1 u2 m :
  (forall h, same_behaviour (run_handler env h (set_ui u1 m))
                            (run_handler env h (set_ui u2 m)))
  /\ (forall t, same_behaviour (run_task env t (set_ui u1 m))
                               (run_task env t (set_ui u2 m))).
Proof.
  assert (T : twin (set_ui u1 m) (set_ui u2 m)) by now repeat split.
  split.
  - intros []; cbn [run_handler];
      [exact (blind_addAddressToWhitelist env _ _ T)
      | exact (blind_connectWallet env _ _ T)].
  - intros []; cbn [run_task];
      [exact (blind_connectWallet env _ _ T)
      | exact (blind_checkIfAddressInWhitelist env _ _ T)
      | exact (blind_getNumberOfWhitelisted env _ _ T)].
Qed.
